(** * Hyperband scheduler ([hyperband.py]): a shallow embedding and its properties

    The development follows the source file top to bottom:
    - [PyData]: the Python data the scheduler manipulates (strings, [str()],
      [int()], insertion-ordered dicts, the stable [sorted]);
    - [Naming]: the [get_name] lambda of [Hyperband.run];
    - [Numeric]: the budget arithmetic of [__init__] and [run];
    - [Scheduler]: [__init__], [load_state], [save_state], [run] over an explicit
      world (the files under [hb_path], the collaborators' state, the log of
      effects);
    - the properties. *)

From Stdlib Require Import List String Ascii ZArith NArith Lia Bool Arith.
From Stdlib Require Import Permutation Sorted DecimalString DecimalZ.
From Stdlib Require DecimalPos.
From Stdlib Require Import Reals Lra.
Import ListNotations.

Local Open Scope string_scope.
Local Open Scope list_scope.

(* ================================================================== *)
(** ** Python data *)
(* ================================================================== *)

Module PyData.

(** Hyperparameter values.  A Python float is carried by its [repr], which
    round-trips, so two floats are equal exactly when the carried texts are. *)
Inductive value : Type :=
| VInt (z : Z)
| VFloat (repr : string)
| VStr (s : string)
| VBool (b : bool).

(** [str(z)] for an int. *)
Definition str_of_Z (z : Z) : string := NilZero.string_of_int (Z.to_int z).

(** [int(s)] for a string: an optionally signed run of decimal digits;
    anything else is Python's [ValueError] ([None] here). *)
Definition int_of_str (s : string) : option Z :=
  option_map Z.of_int (NilZero.int_of_string s).

(** ['%s' % v]. *)
Definition str_value (v : value) : string :=
  match v with
  | VInt z => str_of_Z z
  | VFloat r => r
  | VStr s => s
  | VBool true => "True"
  | VBool false => "False"
  end.

(** A Python dict with string keys: the items in insertion order, every key
    at most once. *)
Definition dict (V : Type) : Type := list (string * V).

Definition keys {V} (d : dict V) : list string := map fst d.

Definition dict_wf {V} (d : dict V) : Prop := NoDup (keys d).

Fixpoint dict_get {V} (k : string) (d : dict V) : option V :=
  match d with
  | [] => None
  | (k', v) :: d' => if String.eqb k k' then Some v else dict_get k d'
  end.

(** [d[k] = v]: an existing key keeps its place, a new one goes last. *)
Fixpoint dict_set {V} (k : string) (v : V) (d : dict V) : dict V :=
  match d with
  | [] => [(k, v)]
  | (k', v') :: d' =>
      if String.eqb k k' then (k', v) :: d' else (k', v') :: dict_set k v d'
  end.

(** [d.update(other)]. *)
Definition dict_update {V} (d other : dict V) : dict V :=
  fold_left (fun acc kv => dict_set (fst kv) (snd kv) acc) other d.

(** [sorted(l)] for the order [leb]: Python's sort is stable, and a stable
    sort has one possible output, the one insertion into a sorted tail
    builds. *)
Section Sorted.
Context {A : Type} (leb : A -> A -> bool).

Fixpoint insert (x : A) (l : list A) : list A :=
  match l with
  | [] => [x]
  | y :: l' => if leb x y then x :: l else y :: insert x l'
  end.

Definition sorted (l : list A) : list A := fold_right insert [] l.

(** The order as a proposition. *)
Definition le (a b : A) : Prop := leb a b = true.
End Sorted.

(** [l[:k]] for an int [k]; a negative [k] counts from the end. *)
Definition slice_to {A} (k : Z) (l : list A) : list A :=
  if (k <? 0)%Z then firstn (Z.to_nat (Z.of_nat (List.length l) + k)) l
  else firstn (Z.to_nat k) l.

(** [range(hi, -1, -1)]. *)
Definition range_down (hi : Z) : list Z :=
  map Z.of_nat (rev (seq 0 (Z.to_nat (hi + 1)))).

(** [range(0, n)]. *)
Definition range_up (n : Z) : list Z :=
  map Z.of_nat (seq 0 (Z.to_nat n)).

End PyData.
Import PyData.

(* ================================================================== *)
(** ** Canonical names *)
(* ================================================================== *)

Module Naming.

(** ['%s=%s' % kv] *)
Definition render_item (kv : string * value) : string :=
  fst kv ++ "=" ++ str_value (snd kv).

(** [get_name = lambda params:
       ','.join(sorted('%s=%s' % kv for kv in params.items()))] *)
Definition get_name (params : dict value) : string :=
  String.concat "," (sorted String.leb (map render_item params)).

(** The name as the specification words it: the keys sorted alphabetically,
    each entry then rendered as [key=value], joined by commas. *)
Definition key_leb (a b : string * value) : bool := String.leb (fst a) (fst b).

Definition name_by_keys (params : dict value) : string :=
  String.concat "," (map render_item (sorted key_leb params)).

(** Every character of the key sorts after ["="]: letters and the
    underscore do, digits and most punctuation do not. *)
Definition key_above_eq (k : string) : Prop :=
  forallb (fun c => Ascii.ltb "=" c) (list_ascii_of_string k) = true.

End Naming.
Import Naming.

(* ================================================================== *)
(** ** Budget arithmetic *)
(* ================================================================== *)

(** The source computes with IEEE doubles ([math.e], [math.log], [**],
    [math.ceil], [round]).  They are taken here as the real numbers they
    approximate; the integers the scheduler derives from them are then the
    exact floor, ceiling and rounding of the real quantities. *)
Module Numeric.
Local Open Scope R_scope.

(** [self.eta = math.e] *)
Definition eta : R := exp 1.

(** [logeta = lambda x: math.log(x) / math.log(self.eta)] *)
Definition logeta (x : R) : R := ln x / ln eta.

(** [int(x)] for a float: truncation towards zero. *)
Definition py_int (x : R) : Z :=
  if Rle_dec 0 x then Int_part x else (- Int_part (- x))%Z.

(** [math.ceil(x)] *)
Definition py_ceil (x : R) : Z := (- Int_part (- x))%Z.

(** [round(x)]: to the nearest integer, a tie to the even one. *)
Definition py_round (x : R) : Z :=
  let f := Int_part x in
  if Rlt_dec (x - IZR f) (1 / 2) then f
  else if Rlt_dec (1 / 2) (x - IZR f) then (f + 1)%Z
  else if Z.even f then f else (f + 1)%Z.

(** [self.s_max = int(logeta(self.max_iter))] *)
Definition s_max_of (max_iter : Z) : Z := py_int (logeta (IZR max_iter)).

(** [self.B = (self.s_max + 1) * self.max_iter] *)
Definition B_of (max_iter : Z) : Z := ((s_max_of max_iter + 1) * max_iter)%Z.

(** [n = int(math.ceil(self.B / self.max_iter / (s + 1) * self.eta ** s))] *)
Definition n_init (B max_iter s : Z) : Z :=
  py_ceil (IZR B / IZR max_iter / IZR (s + 1) * powerRZ eta s).

(** [r = self.max_iter * self.eta ** (-s)] *)
Definition r_init (max_iter s : Z) : R := IZR max_iter * powerRZ eta (- s).

(** [n_configs = n * self.eta ** (-i)] *)
Definition n_configs (n i : Z) : R := IZR n * powerRZ eta (- i).

(** [n_iters = int(round(r * self.eta ** i))] *)
Definition n_iters (r : R) (i : Z) : Z := py_round (r * powerRZ eta i).

(** [int(n_configs / self.eta)] *)
Definition keep_count (n_configs : R) : Z := py_int (n_configs / eta).

End Numeric.
Import Numeric.

Arguments s_max_of : simpl never.
Arguments B_of : simpl never.
Arguments n_init : simpl never.
Arguments r_init : simpl never.
Arguments n_configs : simpl never.
Arguments n_iters : simpl never.
Arguments keep_count : simpl never.

(* ================================================================== *)
(** ** The scheduler *)
(* ================================================================== *)

Module Scheduler.

(** [Config(name, **params)] *)
Record Config : Type := mkConfig {
  name : string;
  params : dict value
}.

(** A reward is a Python float on which the scheduler only compares.  The
    finite doubles embed in the integers with their order (scale by 2^1074),
    so a finite reward is carried by an integer; [-float('inf')] is kept
    apart, [best_info] starts there. *)
Inductive reward_t : Type :=
| NegInf
| Rew (z : Z).

Definition reward_ltb (a b : reward_t) : bool :=
  match a, b with
  | _, NegInf => false
  | NegInf, Rew _ => true
  | Rew x, Rew y => (x <? y)%Z
  end.

Definition reward_leb (a b : reward_t) : bool := negb (reward_ltb b a).

(** [info = dict(reward=reward, config=config, epoch=epoch)] *)
Record info : Type := mkInfo {
  reward : reward_t;
  config : Config;
  epoch : Z
}.

(** [best_info]: [dict(reward=-float('inf'))] until a result replaces it. *)
Inductive best_info : Type :=
| Initial
| Found (i : info).

Definition best_reward (b : best_info) : reward_t :=
  match b with
  | Initial => NegInf
  | Found i => reward i
  end.

(** [max(best_info, info, key=lambda k: k['reward'])]: Python's [max] keeps
    its first argument unless a later one has a strictly greater key. *)
Definition max_by_reward (best : best_info) (i : info) : best_info :=
  if reward_ltb (best_reward best) (reward i) then Found i else best.

(** [sorted(results, key=lambda k: k['reward'], reverse=True)] *)
Definition reward_geb (a b : info) : bool := reward_leb (reward b) (reward a).

Definition sort_results (results : list info) : list info :=
  sorted reward_geb results.

(** [args]: the fields the scheduler reads. *)
Record Args : Type := mkArgs {
  hyperband_path : string;
  model_path : option string;
  data_path : option string;
  train_epoch : option Z
}.

(** [hyperband_config.json] *)
Record hb_config : Type := mkHbConfig {
  cf_model : string;
  cf_data : string;
  cf_train_epoch : Z;
  cf_vars : dict value
}.

(** [state] in memory: bracket index to the sampled parameter sets. *)
Definition state_t : Type := list (Z * list (dict value)).

Fixpoint state_get (s : Z) (st : state_t) : option (list (dict value)) :=
  match st with
  | [] => None
  | (s', v) :: st' => if (s =? s')%Z then Some v else state_get s st'
  end.

Fixpoint state_set (s : Z) (v : list (dict value)) (st : state_t) : state_t :=
  match st with
  | [] => [(s, v)]
  | (s', v') :: st' =>
      if (s =? s')%Z then (s', v) :: st' else (s', v') :: state_set s v st'
  end.

(** What [print] receives. *)
Inductive message : Type :=
| MsgAlreadyBest (target : string)
| MsgLoaded
| MsgGenerated
| MsgTraining (name : string) (n_iters : Z)
| MsgBlank
| MsgBestConfig (name : string)
| MsgIterations (epoch : Z)
| MsgRow (name : string) (epoch : Z).

(** The effects of a run, in the order they happen. *)
Inductive event : Type :=
| EvPrint (m : message)
| EvGetParams (defaults sampled : dict value)
| EvSaveState (json : dict (list (dict value)))
| EvSaveConfig (c : Config) (model data : option string)
| EvFit (c : Config) (n_iters : Z)
| EvLoadBestReward (c : Config) (r : reward_t) (e : Z)
| EvLinkBest (name : string).

(** The collaborators the scheduler calls ([src.util], [src.config] and the
    imported [Model]), and the state they own: the random source, and per
    configuration the training history and the early-stop flag. *)
Class Collaborators : Type := {
  ext : Type;
  (** [path / name] *)
  path_join : string -> string -> string;
  (** the truth value of a [Path] *)
  path_truth : string -> bool;
  (** [Model.get_params(config)] *)
  get_params : dict value -> ext -> dict value * ext;
  (** [t.save(force=True, model=..., data=...)] *)
  save_config : Config -> option string -> option string -> ext -> ext;
  (** [config.stopped_early.exists()] *)
  stopped_early : Config -> ext -> bool;
  (** [Model(config, ...).fit(n_iters)] *)
  fit : Config -> Z -> ext -> ext;
  (** [config.load_best_reward()] *)
  load_best_reward : Config -> ext -> reward_t * Z
}.

Inductive exn : Type :=
| AssertionError (msg : string)
| KeyError
| ValueError.

Inductive result (A : Type) : Type :=
| Ok (a : A)
| Raise (e : exn).
Arguments Ok {A} a.
Arguments Raise {A} e.

Section Run.
Context {C : Collaborators}.

(** What a run can see and change: the three files the scheduler owns under
    [hb_path], the collaborators' state, and the log of effects so far. *)
Record world : Type := mkWorld {
  config_file : option hb_config;
  state_file : option (dict (list (dict value)));
  best_link : option string;
  collab : ext;
  log : list event
}.

(** A computation reads and changes the world and returns or raises; what it
    changed before raising stays changed. *)
Definition M (A : Type) : Type := world -> result A * world.

Definition ret {A} (a : A) : M A := fun w => (Ok a, w).

Definition raise {A} (e : exn) : M A := fun w => (Raise e, w).

Definition bind {A B} (c : M A) (k : A -> M B) : M B :=
  fun w =>
    match c w with
    | (Ok a, w') => k a w'
    | (Raise e, w') => (Raise e, w')
    end.

Definition emit (e : event) (w : world) : world :=
  mkWorld (config_file w) (state_file w) (best_link w) (collab w) (log w ++ [e]).

Definition set_collab (x : ext) (w : world) : world :=
  mkWorld (config_file w) (state_file w) (best_link w) x (log w).

Definition print (m : message) (w : world) : world := emit (EvPrint m) w.

Definition set_state_file (j : dict (list (dict value))) (w : world) : world :=
  mkWorld (config_file w) (Some j) (best_link w) (collab w) (log w).

Definition set_best_link (target : string) (w : world) : world :=
  mkWorld (config_file w) (state_file w) (Some target) (collab w) (log w).

Definition gets {A} (f : world -> A) : M A := fun w => (Ok (f w), w).

Definition modify (f : world -> world) : M unit := fun w => (Ok tt, f w).

Definition lift {A} (f : world -> A * world) : M A :=
  fun w => let (a, w') := f w in (Ok a, w').

Notation "x <- c1 ;; c2" := (bind c1 (fun x => c2))
  (at level 61, c1 at next level, right associativity).
Notation "c1 ;; c2" := (bind c1 (fun _ => c2))
  (at level 61, right associativity).

(** [assert b, msg] *)
Definition assert_ (b : bool) (msg : string) : M unit :=
  if b then ret tt else raise (AssertionError msg).

(** The truth value of [args.model_path] and [args.data_path]. *)
Definition truthy_path (p : option string) : bool :=
  match p with
  | Some p => path_truth p
  | None => false
  end.

(** The truth value of [args.train_epoch]. *)
Definition truthy_int (z : option Z) : bool :=
  match z with
  | Some z => negb (z =? 0)%Z
  | None => false
  end.

(** The scheduler object. *)
Record Hyperband : Type := mkHyperband {
  args : Args;
  hb_path : string;
  config_dict : dict value;
  max_iter : Z;
  s_max : Z;
  B : Z
}.

(** Lines 19-24: the persisted configuration, when there is one, replaces
    the three arguments and updates [config_dict]. *)
Definition merge_config (a : Args) (cd : dict value) (cf : option hb_config)
  : Args * dict value :=
  match cf with
  | Some config =>
      (mkArgs (hyperband_path a) (Some (cf_model config))
              (Some (cf_data config)) (Some (cf_train_epoch config)),
       dict_update cd (cf_vars config))
  | None => (a, cd)
  end.

(** [Hyperband.__init__].  [math.log] raises [ValueError] below zero. *)
Definition init (a : Args) (cd : dict value) : M Hyperband :=
  cf <- gets config_file ;;
  let (a, cd) := merge_config a cd cf in
  assert_ (truthy_path (model_path a)) "model" ;;
  assert_ (truthy_path (data_path a)) "data" ;;
  assert_ (truthy_int (train_epoch a)) "train-epoch" ;;
  match train_epoch a with
  | Some m =>
      if (m <? 0)%Z then raise ValueError
      else ret (mkHyperband a (hyperband_path a) cd m (s_max_of m) (B_of m))
  | None => raise (AssertionError "train-epoch")
  end.

(** [{ int(k): v for k, v in load_json(self.state_path).items() }] *)
Fixpoint int_keys (items : dict (list (dict value))) (acc : state_t)
  : result state_t :=
  match items with
  | [] => Ok acc
  | (k, v) :: items' =>
      match int_of_str k with
      | Some s => int_keys items' (state_set s v acc)
      | None => Raise ValueError
      end
  end.

(** [Hyperband.load_state] *)
Definition load_state : M (option state_t) :=
  fun w =>
    match state_file w with
    | Some json =>
        match int_keys json [] with
        | Ok st => (Ok (Some st), w)
        | Raise e => (Raise e, w)
        end
    | None => (Ok None, w)
    end.

(** JSON object keys are strings: an int key is written as [str(k)]. *)
Definition to_json (state : state_t) : dict (list (dict value)) :=
  map (fun kv => (str_of_Z (fst kv), snd kv)) state.

(** [Hyperband.save_state] *)
Definition save_state (state : state_t) : M unit :=
  modify (fun w =>
    emit (EvSaveState (to_json state)) (set_state_file (to_json state) w)).

(** [Hyperband.link_best] *)
Definition link_best (target : string) : M unit :=
  modify (fun w => emit (EvLinkBest target) (set_best_link target w)).

(** [[Model.get_params(config) for _ in range(n)]] *)
Fixpoint sample_params (defaults : dict value) (n : nat) (w : world)
  : list (dict value) * world :=
  match n with
  | O => ([], w)
  | S n' =>
      let (p, x) := get_params defaults (collab w) in
      let w1 := emit (EvGetParams defaults p) (set_collab x w) in
      let (ps, w2) := sample_params defaults n' w1 in
      (p :: ps, w2)
  end.

(** Lines 55-60: the loop over [s] that fills [state]. *)
Fixpoint generate (hb : Hyperband) (ss : list Z) (state : state_t) (w : world)
  : state_t * world :=
  match ss with
  | [] => (state, w)
  | s :: ss' =>
      let n := n_init (B hb) (max_iter hb) s in
      let (ps, w1) := sample_params (config_dict hb) (Z.to_nat n) w in
      generate hb ss' (state_set s ps state) w1
  end.

(** Lines 69-71: one sampled parameter set becomes a [Config]. *)
Definition make_config (hb : Hyperband) (params : dict value) : Config :=
  let name := path_join (hb_path hb) (get_name params) in
  let params := dict_update params (config_dict hb) in
  mkConfig name params.

(** Lines 67-73: the loop that builds [T] for a bracket. *)
Fixpoint materialise (hb : Hyperband) (ps : list (dict value))
  (T : list Config) (w : world) : list Config * world :=
  match ps with
  | [] => (T, w)
  | params :: ps' =>
      let t := make_config hb params in
      let m := model_path (args hb) in
      let d := data_path (args hb) in
      let w1 := emit (EvSaveConfig t m d)
                  (set_collab (save_config t m d (collab w)) w) in
      materialise hb ps' (T ++ [t]) w1
  end.

(** Lines 86-98: the loop over the configurations of a round. *)
Fixpoint train_configs (n_iters : Z) (T : list Config) (best : best_info)
  (results : list info) (w : world) : best_info * list info * world :=
  match T with
  | [] => (best, results, w)
  | config :: T' =>
      if stopped_early config (collab w)
      then train_configs n_iters T' best results w
      else
        let w1 := print (MsgTraining (name config) n_iters) w in
        let w2 := emit (EvFit config n_iters)
                    (set_collab (fit config n_iters (collab w1)) w1) in
        let (reward, epoch) := load_best_reward config (collab w2) in
        let w3 := emit (EvLoadBestReward config reward epoch) w2 in
        let info := mkInfo reward config epoch in
        let best := max_by_reward best info in
        let results :=
          if stopped_early config (collab w3) then results
          else results ++ [info] in
        train_configs n_iters T' best results (print MsgBlank w3)
  end.

(** Lines 100-101: the survivors of a round. *)
Definition select (n_configs : R) (results : list info) : list Config :=
  map config (slice_to (keep_count n_configs) (sort_results results)).

(** Lines 82-101: one round. *)
Definition round (n : Z) (r : R) (i : Z)
  (T : list Config) (best : best_info) (w : world)
  : list Config * best_info * world :=
  let '(best, results, w) :=
    train_configs (n_iters r i) T best [] w in
  (select (n_configs n i) results, best, w).

(** Lines 79-101: the loop over [i]. *)
Fixpoint rounds (n : Z) (r : R) (idxs : list Z)
  (T : list Config) (best : best_info) (w : world)
  : list Config * best_info * world :=
  match idxs with
  | [] => (T, best, w)
  | i :: idxs' =>
      let '(T, best, w) := round n r i T best w in
      rounds n r idxs' T best w
  end.

(** Lines 67-101: one bracket; [state[s]] raises [KeyError] when the state
    has no bracket [s]. *)
Definition bracket (hb : Hyperband) (state : state_t) (s : Z)
  (best : best_info) : M best_info :=
  match state_get s state with
  | None => raise KeyError
  | Some ps =>
      lift (fun w =>
        let (T, w) := materialise hb ps [] w in
        let n := Z.of_nat (List.length T) in
        let r := r_init (max_iter hb) s in
        let '(_, best, w) := rounds n r (range_up (s + 1)) T best w in
        (best, w))
  end.

(** Lines 66-101: the loop over [s]. *)
Fixpoint sweep (hb : Hyperband) (state : state_t) (ss : list Z)
  (best : best_info) : M best_info :=
  match ss with
  | [] => ret best
  | s :: ss' =>
      best <- bracket hb state s best ;;
      sweep hb state ss' best
  end.

(** Lines 49-62: the state is loaded, or generated and saved when
    [load_state] returns nothing or an empty dict. *)
Definition obtain_state (hb : Hyperband) : M state_t :=
  loaded <- load_state ;;
  match loaded with
  | Some (b :: st) => modify (print MsgLoaded) ;; ret (b :: st)
  | _ =>
      state <- lift (generate hb (range_down (s_max hb)) []) ;;
      save_state state ;;
      modify (print MsgGenerated) ;;
      ret state
  end.

(** Lines 103-107: [best_info['config']] raises [KeyError] while
    [best_info] is still the initial dict. *)
Definition finalise (best : best_info) : M unit :=
  match best with
  | Initial => raise KeyError
  | Found i =>
      link_best (name (config i)) ;;
      modify (print (MsgBestConfig (name (config i)))) ;;
      modify (print (MsgIterations (epoch i))) ;;
      modify (print (MsgRow (name (config i)) (epoch i)))
  end.

(** [Hyperband.run] *)
Definition run (hb : Hyperband) : M unit :=
  marker <- gets best_link ;;
  match marker with
  | Some target => modify (print (MsgAlreadyBest target))
  | None =>
      state <- obtain_state hb ;;
      best <- sweep hb state (range_down (s_max hb)) Initial ;;
      finalise best
  end.

End Run.
End Scheduler.

Import Scheduler.

(* ================================================================== *)
(** ** Reading a run: outcomes, events, arrivals *)
(* ================================================================== *)

Module Trace.
Section Trace.
Context {C : Collaborators}.

(** What happened to one configuration of a round: it was skipped, or it
    was trained, gave a result, and had or had not its early-stop flag
    afterwards. *)
Inductive outcome : Type :=
| Skipped
| Trained (i : info) (stopped_after : bool).

(** One iteration of the loop of lines 86-98, by itself. *)
Definition train_one (n_iters : Z) (config : Config) (w : world)
  : outcome * world :=
  if stopped_early config (collab w) then (Skipped, w)
  else
    let w1 := print (MsgTraining (name config) n_iters) w in
    let w2 := emit (EvFit config n_iters)
                (set_collab (fit config n_iters (collab w1)) w1) in
    let (reward, epoch) := load_best_reward config (collab w2) in
    let w3 := emit (EvLoadBestReward config reward epoch) w2 in
    (Trained (mkInfo reward config epoch) (stopped_early config (collab w3)),
     print MsgBlank w3).

(** The outcomes of a round, one per entry of [T], in order. *)
Fixpoint outcomes (n_iters : Z) (T : list Config) (w : world) : list outcome :=
  match T with
  | [] => []
  | config :: T' =>
      let (o, w') := train_one n_iters config w in
      o :: outcomes n_iters T' w'
  end.

(** The world after the round. *)
Fixpoint after_outcomes (n_iters : Z) (T : list Config) (w : world) : world :=
  match T with
  | [] => w
  | config :: T' => after_outcomes n_iters T' (snd (train_one n_iters config w))
  end.

(** The results of the trained configurations, early-stopped or not. *)
Definition trained (os : list outcome) : list info :=
  flat_map (fun o => match o with
                     | Trained i _ => [i]
                     | Skipped => []
                     end) os.

(** The results recorded as candidates for survival. *)
Definition candidates (os : list outcome) : list info :=
  flat_map (fun o => match o with
                     | Trained i false => [i]
                     | _ => []
                     end) os.


(** The effects one entry of a round leaves in the log. *)
Definition outcome_events (n_iters : Z) (c : Config) (o : outcome)
  : list event :=
  match o with
  | Skipped => []
  | Trained i _ =>
      [EvPrint (MsgTraining (name c) n_iters); EvFit c n_iters;
       EvLoadBestReward c (reward i) (epoch i); EvPrint MsgBlank]
  end.

Definition round_events (n_iters : Z) (T : list Config) (os : list outcome)
  : list event :=
  flat_map (fun co => outcome_events n_iters (fst co) (snd co)) (combine T os).

(** The results that arrived, read off the log: one per
    [load_best_reward]. *)
Definition arrivals (evs : list event) : list info :=
  flat_map (fun e => match e with
                     | EvLoadBestReward c r ep => [mkInfo r c ep]
                     | _ => []
                     end) evs.

(** The running maximum over the results that arrived. *)
Definition best_of (results : list info) (start : best_info) : best_info :=
  fold_left max_by_reward results start.

Definition is_link (e : event) : bool :=
  match e with EvLinkBest _ => true | _ => false end.

Definition is_get_params (e : event) : bool :=
  match e with EvGetParams _ _ => true | _ => false end.

Definition is_save_state (e : event) : bool :=
  match e with EvSaveState _ => true | _ => false end.

Definition is_fit (e : event) : bool :=
  match e with EvFit _ _ => true | _ => false end.

(** The events of the sweep proper: saving a configuration, fitting,
    reading a reward, printing. *)
Definition sweep_event (e : event) : Prop :=
  match e with
  | EvPrint _ | EvSaveConfig _ _ _ | EvFit _ _ | EvLoadBestReward _ _ _ => True
  | _ => False
  end.

(** [w'] is [w] with more in the log and the collaborators' state moved on;
    the scheduler's own files are as they were. *)
Definition frame (w w' : world) (evs : list event) : Prop :=
  config_file w' = config_file w /\
  state_file w' = state_file w /\
  best_link w' = best_link w /\
  log w' = log w ++ evs.

(** The event a materialised parameter set leaves. *)
Definition save_event (hb : Hyperband) (p : dict value) : event :=
  EvSaveConfig (make_config hb p) (model_path (args hb)) (data_path (args hb)).

(** The events of sampling. *)
Definition sample_events (defaults : dict value) (ps : list (dict value))
  : list event :=
  map (EvGetParams defaults) ps.

(** Neither sampling nor saving the state. *)
Definition keeps_state (e : event) : Prop :=
  is_get_params e = false /\ is_save_state e = false.

(** The population a bracket is to start from. *)
Definition population_size (hb : Hyperband) (s : Z) (ps : list (dict value))
  : Prop :=
  List.length ps = Z.to_nat (n_init (B hb) (max_iter hb) s).

(** The effects of finalisation with the winner [i]. *)
Definition final_events (i : info) : list event :=
  [EvLinkBest (name (config i));
   EvPrint (MsgBestConfig (name (config i)));
   EvPrint (MsgIterations (epoch i));
   EvPrint (MsgRow (name (config i)) (epoch i))].

(** The state has a population for every bracket of the sweep. *)
Definition covers (st : state_t) (ss : list Z) : Prop :=
  Forall (fun s => state_get s st <> None) ss.

(** Lines 65-107: the sweep and the finalisation, from the world the state
    was obtained in. *)
Definition finish (hb : Hyperband) (st : state_t) : M unit :=
  bind (sweep hb st (range_down (s_max hb)) Initial) finalise.


End Trace.
End Trace.
Import Trace.

(* ================================================================== *)
(** ** A small adapter and concrete inputs *)
(* ================================================================== *)

Module Toy.

(** The state of a small stand-in for the collaborators: the next value the
    sampler hands out, the configurations fitted so far, and the
    configurations whose early-stop flag exists. *)
Record toy_ext : Type := mkToy {
  seed : Z;
  fitted : list string;
  flags : list string
}.

(** Samples the learning rate only. *)
Definition toy_get_params (defaults : dict value) (x : toy_ext)
  : dict value * toy_ext :=
  ([("lr", VInt (seed x))], mkToy (seed x + 1) (fitted x) (flags x)).

(** Fitting records the call; a configuration with [stop=True] raises its
    early-stop flag when fitted. *)
Definition toy_fit (c : Config) (n_iters : Z) (x : toy_ext) : toy_ext :=
  mkToy (seed x) (fitted x ++ [name c])
        (match dict_get "stop" (params c) with
         | Some (VBool true) => flags x ++ [name c]
         | _ => flags x
         end).

Definition toy_stopped_early (c : Config) (x : toy_ext) : bool :=
  existsb (String.eqb (name c)) (flags x).

(** The reward is the learning rate; the best epoch is the number of fits. *)
Definition toy_load_best_reward (c : Config) (x : toy_ext) : reward_t * Z :=
  (match dict_get "lr" (params c) with
   | Some (VInt z) => Rew z
   | _ => Rew 0
   end,
   Z.of_nat (count_occ string_dec (fitted x) (name c))).

Definition adapter : Collaborators := {|
  ext := toy_ext;
  path_join := fun a b => (a ++ "/" ++ b)%string;
  path_truth := fun p => negb (String.eqb p "");
  get_params := toy_get_params;
  save_config := fun _ _ _ x => x;
  stopped_early := toy_stopped_early;
  fit := toy_fit;
  load_best_reward := toy_load_best_reward
|}.

Definition params_ab : dict value := [("a", VInt 1); ("b", VInt 2)].
Definition params_ba : dict value := [("b", VInt 2); ("a", VInt 1)].

(** Two keys, one a prefix of the other, the longer going on with a digit. *)
Definition params_a_a0 : dict value := [("a", VInt 1); ("a0", VInt 1)].

Definition params_lr_momentum : dict value :=
  [("momentum", VFloat "0.9"); ("lr", VFloat "0.001")].

Definition args1 : Args := mkArgs "hb" (Some "model.py") (Some "data") (Some 1%Z).

Definition defaults1 : dict value := [("lr", VInt 5); ("batch", VInt 32)].

(** The scheduler [__init__] builds from [args1] and [defaults1]. *)
Definition hb1 : Hyperband :=
  mkHyperband args1 "hb" defaults1 1 (s_max_of 1) (B_of 1).

(** Arguments that leave everything to the persisted configuration. *)
Definition args_unset : Args := mkArgs "hb" None None None.

Definition persisted1 : hb_config :=
  mkHbConfig "net.py" "train.h5" 8 [("lr", VInt 7); ("depth", VInt 3)].

(** [lr] sampled as 1: the one configuration of bracket 0. *)
Definition sampled1 : dict value := [("lr", VInt 1)].

Definition state_json1 : dict (list (dict value)) := [("0", [sampled1])].

(** Nothing under [hb_path] yet. *)
Definition w_fresh : world :=
  @mkWorld adapter None None None (mkToy 1 [] []) [].

(** A finished search: the best marker is there. *)
Definition w_done : world :=
  @mkWorld adapter None (Some state_json1) (Some "hb/lr=1") (mkToy 2 ["hb/lr=1"] []) [].



(** A search interrupted right after the state was saved. *)
Definition w_resume : world :=
  @mkWorld adapter None (Some state_json1) None (mkToy 2 [] []) [].

(** A scheduler whose defaults leave the learning rate alone. *)
Definition hb_plain : Hyperband :=
  mkHyperband args1 "hb" [("batch", VInt 32)] 1 (s_max_of 1) (B_of 1).

(** Three configurations; the one of greatest learning rate stops early
    when fitted. *)
Definition c_stop : Config :=
  make_config (C := adapter) hb_plain [("lr", VInt 3); ("stop", VBool true)].
Definition c_mid : Config :=
  make_config (C := adapter) hb_plain [("lr", VInt 2)].
Definition c_low : Config :=
  make_config (C := adapter) hb_plain [("lr", VInt 1)].

(** A directory holding only [hyperband_config.json]. *)
Definition w_configured : world :=
  @mkWorld adapter (Some persisted1) None None (mkToy 1 [] []) [].

End Toy.

(* ================================================================== *)
(** ** Reading a run: where the fitted configurations come from *)
(* ================================================================== *)

Module Provenance.
Section Provenance.
Context {C : Collaborators}.

(** Every fit in [evs] is of a configuration built from a parameter set of
    the state, and comes after that configuration was saved. *)
Definition saved_then_fitted (hb : Hyperband) (st : state_t)
  (evs : list event) : Prop :=
  forall pre c k post,
    evs = pre ++ EvFit c k :: post ->
    In (EvSaveConfig c (model_path (args hb)) (data_path (args hb))) pre /\
    exists s ps p,
      state_get s st = Some ps /\ In p ps /\ c = make_config hb p.

End Provenance.
End Provenance.
Import Provenance.

(* ================================================================== *)
(** ** The [cache] decorator *)
(* ================================================================== *)

Module Cache.
Section Cache.
Variables A V S : Type.

(** The decorated function: it returns [None] or a value, and may read and
    change a state of its own. *)
Variable f : A -> S -> option V * S.

(** The closure [cache(f)] together with the state [f] works on. *)
Record closure : Type := mkClosure {
  cached_output : option V;
  outside : S
}.

(** [cache(f)]: [cached_output = None]. *)
Definition cache (s : S) : closure := mkClosure None s.

(** [wrapper], called with the arguments [args]. *)
Definition wrapper (args : A) (c : closure) : option V * closure :=
  match cached_output c with
  | None =>
      let (out, s) := f args (outside c) in
      (out, mkClosure out s)
  | Some v => (Some v, c)
  end.

(** Successive calls of the wrapper. *)
Fixpoint calls (l : list A) (c : closure) : list (option V) * closure :=
  match l with
  | [] => ([], c)
  | args :: l' =>
      let (out, c1) := wrapper args c in
      let (outs, c2) := calls l' c1 in
      (out :: outs, c2)
  end.

(** The same calls made to [f] itself. *)
Fixpoint plain_calls (l : list A) (s : S) : list (option V) * S :=
  match l with
  | [] => ([], s)
  | args :: l' =>
      let (out, s1) := f args s in
      let (outs, s2) := plain_calls l' s1 in
      (out :: outs, s2)
  end.

End Cache.

Arguments mkClosure {V S} _ _.
Arguments cached_output {V S} _.
Arguments outside {V S} _.
Arguments cache {V S} _.
Arguments wrapper {A V S} _ _ _.
Arguments calls {A V S} _ _ _.
Arguments plain_calls {A V S} _ _ _.

(** A function that returns its argument and counts its calls. *)
Definition echo (a : Z) (n : nat) : option Z * nat := (Some a, S n).

(** A function that returns nothing and counts its calls. *)
Definition silent (a : Z) (n : nat) : option Z * nat := (None, S n).

End Cache.

(* ================================================================== *)
(** ** The command line *)
(* ================================================================== *)

Module Cli.

(** [args.hyperband_path.ls()]: the names of the sub-directories and of the
    files. *)
Record listing : Type := mkListing {
  subdirs : list string;
  files : list string
}.

Inductive removal : Type :=
| RmDir (name : string)
| RmFile (name : string).

(** [subdir.rm()] and [f.rm()]: the entry is gone. *)
Definition rm_subdir (name : string) (d : listing) : listing :=
  mkListing (remove string_dec name (subdirs d)) (files d).

Definition rm_file (name : string) (d : listing) : listing :=
  mkListing (subdirs d) (remove string_dec name (files d)).

(** Lines 159-160. *)
Fixpoint rm_subdirs (l : list string) (st : listing * list removal)
  : listing * list removal :=
  match l with
  | [] => st
  | subdir :: l' =>
      rm_subdirs l' (rm_subdir subdir (fst st), snd st ++ [RmDir subdir])
  end.

(** Lines 161-163. *)
Fixpoint rm_files (l : list string) (st : listing * list removal)
  : listing * list removal :=
  match l with
  | [] => st
  | f :: l' =>
      if negb (String.eqb f "hyperband_config.json")
      then rm_files l' (rm_file f (fst st), snd st ++ [RmFile f])
      else rm_files l' st
  end.

(** Lines 158-163: the listing is taken once, then worked through. *)
Definition clean_all (d : listing) : listing * list removal :=
  rm_files (files d) (rm_subdirs (subdirs d) (d, [])).

(** What [get_train_args(parser)] hands over. *)
Record invocation : Type := mkInvocation {
  inv_args : Args;
  clean : option Z;
  inv_config_dict : dict value
}.

(** How the script ends: [exit()] after cleaning, or the search. *)
Inductive ending {C : Collaborators} : Type :=
| Exited (d : listing) (removed : list removal)
| Searched (r : result unit) (w : world).

(** Lines 153-168. *)
Definition main {C : Collaborators} (inv : invocation) (d : listing)
  (w : world) : ending :=
  if truthy_int (clean inv) then
    match clean inv with
    | Some 2%Z => let (d', removed) := clean_all d in Exited d' removed
    | _ => Exited d []
    end
  else
    match init (inv_args inv) (inv_config_dict inv) w with
    | (Ok hb, w1) => let (r, w2) := run hb w1 in Searched r w2
    | (Raise e, w1) => Searched (Raise e) w1
    end.

Definition is_config_file (name : string) : bool :=
  String.eqb name "hyperband_config.json".

Definition dir1 : listing :=
  mkListing ["lr=1"; "lr=2"; "best_config"]
            ["hyperband_config.json"; "hyperband_state.json"].

End Cli.

(* ================================================================== *)
(** ** Batches of adversarial examples ([generators/adversarial.py]) *)
(* ================================================================== *)

Module Batches.

(** An index of a slice, brought into [0 .. len] the way Python does. *)
Definition clip (len k : Z) : Z :=
  if (k <? 0)%Z then Z.max 0 (len + k) else Z.min k len.

(** [l[lo:hi]] *)
Definition py_slice {A} (lo hi : Z) (l : list A) : list A :=
  let len := Z.of_nat (List.length l) in
  firstn (Z.to_nat (clip len hi - clip len lo))
         (skipn (Z.to_nat (clip len lo)) l).

Section Next.
Variables Xrow Yrow : Type.

(** The fields of the generator [next] reads and writes; [MatrixGen], the
    base class that sets them, is not part of the sources. *)
Record generator : Type := mkGen {
  X : list Xrow;
  Y : option (list Yrow);
  i : Z;
  N : Z;
  batch_size : Z;
  task : string
}.

(** What [next] hands back, as the call it makes to the adversarial
    generator: [generate_classification] without labels (paired with
    [None]), [generate_classification] or [generate_regression] with
    labels, or nothing at all when the task is neither. *)
Inductive batch : Type :=
| Unlabelled (xs : list Xrow)
| Classification (xs : list Xrow) (ys : list Yrow)
| Regression (xs : list Xrow) (ys : list Yrow)
| NoBatch.

Inductive step : Type :=
| StopIteration
| Return (b : batch).

(** [AdversarialH5pyGen.next] *)
Definition next (g : generator) : step * generator :=
  if (N g <=? i g)%Z then (StopIteration, g)
  else
    let start := i g in
    let stop := (i g + batch_size g)%Z in
    let g' := mkGen (X g) (Y g) stop (N g) (batch_size g) (task g) in
    match Y g with
    | None => (Return (Unlabelled (py_slice start stop (X g))), g')
    | Some y =>
        if String.eqb (task g) "classification"
        then (Return (Classification (py_slice start stop (X g))
                                     (py_slice start stop y)), g')
        else if String.eqb (task g) "regression"
        then (Return (Regression (py_slice start stop (X g))
                                 (py_slice start stop y)), g')
        else (Return NoBatch, g')
    end.

(** Iteration: [next] until [StopIteration], at most [fuel] times; the
    flag tells whether the end was reached. *)
Fixpoint drain (fuel : nat) (g : generator) : list batch * bool * generator :=
  match fuel with
  | O => ([], false, g)
  | S k =>
      match next g with
      | (StopIteration, g') => ([], true, g')
      | (Return b, g') =>
          let '(bs, stopped, g'') := drain k g' in
          (b :: bs, stopped, g'')
      end
  end.

Definition xs_of (b : batch) : list Xrow :=
  match b with
  | Unlabelled xs | Classification xs _ | Regression xs _ => xs
  | NoBatch => []
  end.

Definition ys_of (b : batch) : list Yrow :=
  match b with
  | Classification _ ys | Regression _ ys => ys
  | _ => []
  end.

Definition is_classification (b : batch) : Prop :=
  match b with Classification _ _ => True | _ => False end.

End Next.

Arguments mkGen {Xrow Yrow} _ _ _ _ _ _.
Arguments X {Xrow Yrow} _.
Arguments Y {Xrow Yrow} _.
Arguments i {Xrow Yrow} _.
Arguments N {Xrow Yrow} _.
Arguments batch_size {Xrow Yrow} _.
Arguments task {Xrow Yrow} _.
Arguments Unlabelled {Xrow Yrow} _.
Arguments Classification {Xrow Yrow} _ _.
Arguments Regression {Xrow Yrow} _ _.
Arguments NoBatch {Xrow Yrow}.
Arguments StopIteration {Xrow Yrow}.
Arguments Return {Xrow Yrow} _.
Arguments next {Xrow Yrow} _.
Arguments drain {Xrow Yrow} _ _.
Arguments xs_of {Xrow Yrow} _.
Arguments ys_of {Xrow Yrow} _.
Arguments is_classification {Xrow Yrow} _.

(** Five rows in batches of two. *)
Definition gen5 : generator nat bool :=
  mkGen [10; 11; 12; 13; 14]%nat (Some [true; false; true; false; true])
        0 5 2 "classification".

Definition gen5_other : generator nat bool :=
  mkGen [10; 11; 12; 13; 14]%nat (Some [true; false; true; false; true])
        0 5 2 "ranking".

End Batches.

(* ================================================================== *)
(** ** One-hot encoding of a perturbed sequence ([cont2ohe]) *)
(* ================================================================== *)

Module OneHot.

(** A two-dimensional array: its number of columns and its rows.  The
    entries of [old_x] are the integers a one-hot encoding holds, which
    floats add exactly; [new_x] is only compared, so its floats are carried
    by integers in the same order. *)
Record matrix : Type := mkMatrix {
  ncols : nat;
  rows : list (list Z)
}.

(** [m.shape[0]] *)
Definition nrows (m : matrix) : nat := List.length (rows m).



(** [m[:, c]] *)
Definition column (c : nat) (m : matrix) : list Z :=
  map (fun row => nth c row 0%Z) (rows m).

(** [np.argmax] of a vector: the first index of the greatest entry. *)
Fixpoint argmax_from (best_idx : nat) (best : Z) (idx : nat) (l : list Z) : nat :=
  match l with
  | [] => best_idx
  | x :: l' =>
      if (best <? x)%Z then argmax_from idx x (S idx) l'
      else argmax_from best_idx best (S idx) l'
  end.

Definition np_argmax (l : list Z) : nat :=
  match l with
  | [] => O
  | x :: l' => argmax_from O x 1 l'
  end.

(** [np.sum] of a vector. *)
Definition np_sum (l : list Z) : Z := fold_right Z.add 0%Z l.

Fixpoint set_nth {A} (n : nat) (v : A) (l : list A) : list A :=
  match l, n with
  | [], _ => []
  | _ :: l', O => v :: l'
  | x :: l', S n' => x :: set_nth n' v l'
  end.

(** [m[r, c] = v] for indices in range. *)
Definition set_cell (r c : nat) (v : Z) (m : matrix) : matrix :=
  mkMatrix (ncols m) (set_nth r (set_nth c v (nth r (rows m) [])) (rows m)).

(** [np.zeros((R, L))] *)
Definition zeros (R L : nat) : matrix := mkMatrix L (repeat (repeat 0%Z L) R).

Inductive raised : Type := ValueError | IndexError.

Inductive outcome : Type :=
| Raise (e : raised)
| Return (m : matrix).

(** [max_inds[i]] after [squeeze()]: an array of one entry has become a
    scalar and cannot be indexed; otherwise the index must be in range. *)
Definition index_squeezed (max_inds : list nat) (i : nat) : option nat :=
  if (List.length max_inds =? 1)%nat then None else nth_error max_inds i.

(** The loop over the columns; an index out of range raises [IndexError]
    ([None] here). *)
Fixpoint fill (cols : list nat) (max_inds : list nat) (ind_sum : list Z)
  (ohe_x : matrix) : option matrix :=
  match cols with
  | [] => Some ohe_x
  | i :: cols' =>
      match index_squeezed max_inds i with
      | None => None
      | Some r =>
          if (r <? nrows ohe_x)%nat
          then fill cols' max_inds ind_sum (set_cell r i (nth i ind_sum 0%Z) ohe_x)
          else None
      end
  end.

(** [cont2ohe]; [np.argmax] raises [ValueError] on an array without rows.
    The result is returned with one more axis of length one, which holds
    the same entries. *)
Definition cont2ohe (old_x new_x : matrix) : outcome :=
  match rows new_x with
  | [] => Raise ValueError
  | _ =>
      let max_inds := map (fun c => np_argmax (column c new_x)) (seq 0 (ncols new_x)) in
      let ind_sum := map (fun c => np_sum (column c old_x)) (seq 0 (ncols old_x)) in
      match fill (seq 0 (ncols old_x)) max_inds ind_sum
                 (zeros (nrows old_x) (ncols old_x)) with
      | Some m => Return m
      | None => Raise IndexError
      end
  end.


(** One position only. *)
Definition single : matrix := mkMatrix 1 [[1]; [0]]%Z.

End OneHot.

(* ================================================================== *)
(** ** More concrete inputs *)
(* ================================================================== *)

Module Inputs.

(** A state file that has bracket 1 only. *)
Definition w_wrong_bracket : world :=
  @mkWorld Toy.adapter None (Some [("1", [Toy.sampled1])]) None
    (Toy.mkToy 2 [] []) [].


Definition state1 : state_t := [(0%Z, [Toy.sampled1])].



End Inputs.

(* ================================================================== *)
(** ** Sorting: permutation, order, uniqueness, stability *)
(* ================================================================== *)

Section SortedFacts.
Context {A : Type} (leb : A -> A -> bool).

Hypothesis leb_total : forall a b, leb a b = true \/ leb b a = true.
Hypothesis leb_trans : forall a b c, le leb a b -> le leb b c -> le leb a c.

Lemma insert_perm (x : A) (l : list A) : Permutation (insert leb x l) (x :: l).
Proof.
  induction l as [|y l IH]; simpl; [reflexivity|].
  destruct (leb x y); [reflexivity|].
  rewrite IH. apply perm_swap.
Qed.

Lemma sorted_perm (l : list A) : Permutation (sorted leb l) l.
Proof.
  induction l as [|x l IH]; simpl; [constructor|].
  rewrite insert_perm. now constructor.
Qed.

Lemma sorted_length (l : list A) : List.length (sorted leb l) = List.length l.
Proof. apply Permutation_length, sorted_perm. Qed.

Lemma insert_sorted (x : A) (l : list A) :
  StronglySorted (le leb) l -> StronglySorted (le leb) (insert leb x l).
Proof.
  induction 1 as [|y l Hs IH Hy]; simpl.
  - repeat constructor.
  - destruct (leb x y) eqn:E.
    + constructor; [now constructor|].
      constructor; [exact E|].
      rewrite Forall_forall in *. intros z Hz. eapply leb_trans; eauto.
    + constructor; [exact IH|].
      rewrite Forall_forall in *. intros z Hz.
      apply (Permutation_in _ (insert_perm x l)) in Hz.
      destruct Hz as [<-|Hz]; [|auto].
      destruct (leb_total x y) as [H|H]; [congruence|exact H].
Qed.

Lemma sorted_sorted (l : list A) : StronglySorted (le leb) (sorted leb l).
Proof.
  induction l as [|x l IH]; simpl; [constructor|].
  now apply insert_sorted.
Qed.



(** An antisymmetric order leaves one way to sort. *)
Hypothesis leb_antisym : forall a b, le leb a b -> le leb b a -> a = b.

Lemma sorted_unique (l1 l2 : list A) :
  StronglySorted (le leb) l1 -> StronglySorted (le leb) l2 ->
  Permutation l1 l2 -> l1 = l2.
Proof.
  intros H1; revert l2.
  induction H1 as [|a l1 Hs1 IH Ha]; intros l2 H2 HP.
  - apply Permutation_nil in HP. now subst.
  - destruct H2 as [|b l2 Hs2 Hb].
    + apply Permutation_sym, Permutation_nil in HP. discriminate.
    + assert (a = b) as <-.
      { rewrite Forall_forall in Ha, Hb.
        assert (In a (b :: l2)) as Ia
          by (eapply Permutation_in; [exact HP | now left]).
        assert (In b (a :: l1)) as Ib
          by (eapply Permutation_in;
              [apply Permutation_sym; exact HP | now left]).
        destruct Ia as [->|Ia]; [reflexivity|].
        destruct Ib as [->|Ib]; [reflexivity|].
        apply leb_antisym; auto. }
      f_equal. apply IH; [exact Hs2|].
      eapply Permutation_cons_inv; exact HP.
Qed.

Lemma sorted_of_perm (l1 l2 : list A) :
  Permutation l1 l2 -> sorted leb l1 = sorted leb l2.
Proof.
  intros HP. apply sorted_unique; try apply sorted_sorted.
  rewrite !sorted_perm. exact HP.
Qed.

End SortedFacts.

(* ================================================================== *)
(** ** Strings and dicts *)
(* ================================================================== *)

Lemma string_leb_trans (a b c : string) :
  String.leb a b = true -> String.leb b c = true -> String.leb a c = true.
Proof.
  revert b c.
  induction a as [|x a IH]; intros [|y b] [|z c]; unfold String.leb; simpl;
    try discriminate; try reflexivity.
  specialize (IH b c). unfold String.leb in IH.
  unfold Ascii.compare.
  destruct (N.compare_spec (N_of_ascii x) (N_of_ascii y)) as [E1|L1|G1];
  destruct (N.compare_spec (N_of_ascii y) (N_of_ascii z)) as [E2|L2|G2];
  try discriminate; intros H1 H2;
  destruct (N.compare_spec (N_of_ascii x) (N_of_ascii z)) as [E3|L3|G3];
  try reflexivity; try lia; auto.
Qed.

(** [int(str(z)) == z] *)
Lemma int_of_str_of_Z (z : Z) : int_of_str (str_of_Z z) = Some z.
Proof.
  unfold int_of_str, str_of_Z.
  rewrite NilZero.isi.
  - simpl. now rewrite DecimalZ.of_to.
  - destruct z; simpl; try discriminate.
    intros [= H]. revert H. apply DecimalPos.Unsigned.to_uint_nonnil.
  - destruct z; simpl; try discriminate.
    intros [= H]. revert H. apply DecimalPos.Unsigned.to_uint_nonnil.
Qed.

Section DictFacts.
Context {V : Type}.
Implicit Types (d o : dict V) (k : string) (v : V).

Lemma dict_get_None k d : dict_get k d = None <-> ~ In k (keys d).
Proof.
  induction d as [|[k' v'] d IH]; simpl; [tauto|].
  destruct (String.eqb_spec k k') as [->|Hne].
  - split; [discriminate | intros H; exfalso; apply H; now left].
  - rewrite IH. split; [intros H [E|I]; congruence | tauto].
Qed.

Lemma dict_get_In k v d :
  dict_wf d -> (In (k, v) d <-> dict_get k d = Some v).
Proof.
  unfold dict_wf.
  induction d as [|[k' v'] d IH]; simpl; intros Hwf.
  - split; [tauto | discriminate].
  - inversion Hwf as [|? ? Hk Hd]; subst.
    destruct (String.eqb_spec k k') as [->|Hne].
    + split.
      * intros [[= ->]|I]; [reflexivity|].
        exfalso. apply Hk. change k' with (fst (k', v)). now apply in_map.
      * intros [= ->]. now left.
    + rewrite <- (IH Hd). split; [intros [[= ? ?]|I]; congruence | tauto].
Qed.

Lemma dict_get_set k k' v d :
  dict_get k (dict_set k' v d) =
  if String.eqb k k' then Some v else dict_get k d.
Proof.
  induction d as [|[k0 v0] d IH]; simpl.
  - reflexivity.
  - destruct (String.eqb_spec k' k0) as [->|Hne]; simpl.
    + now destruct (String.eqb k k0).
    + rewrite IH. destruct (String.eqb_spec k k0) as [->|Hne2]; [|reflexivity].
      destruct (String.eqb_spec k0 k'); congruence.
Qed.

(** After [d.update(o)], a key of [o] has the value [o] gives it, any
    other key the value it had. *)
Lemma dict_get_update k d o :
  dict_wf o ->
  dict_get k (dict_update d o) =
  match dict_get k o with
  | Some v => Some v
  | None => dict_get k d
  end.
Proof.
  unfold dict_wf, dict_update. revert d.
  induction o as [|[k' v'] o IH]; simpl; intros d Hwf; [reflexivity|].
  inversion Hwf as [|? ? Hk Ho]; subst.
  rewrite (IH _ Ho), dict_get_set.
  destruct (String.eqb_spec k k') as [->|Hne]; [|reflexivity].
  apply dict_get_None in Hk. now rewrite Hk.
Qed.

Lemma keys_set k v d :
  keys (dict_set k v d) = if in_dec string_dec k (keys d) then keys d
                          else keys d ++ [k].
Proof.
  induction d as [|[k0 v0] d IH]; simpl; [reflexivity|].
  destruct (String.eqb_spec k k0) as [->|Hne]; simpl.
  - destruct (string_dec k0 k0); [reflexivity | congruence].
  - rewrite IH. destruct (string_dec k0 k) as [E|Hn]; [congruence|].
    now destruct (in_dec string_dec k (keys d)).
Qed.

Lemma dict_set_wf k v d : dict_wf d -> dict_wf (dict_set k v d).
Proof.
  unfold dict_wf. rewrite keys_set.
  destruct (in_dec string_dec k (keys d)) as [|Hn]; [auto|].
  intros H. apply NoDup_app; auto.
  - repeat constructor. simpl. tauto.
  - intros a Ha [<-|[]]. contradiction.
Qed.

Lemma dict_update_wf d o : dict_wf d -> dict_wf (dict_update d o).
Proof.
  unfold dict_update. revert d.
  induction o as [|[k v] o IH]; simpl; intros d Hd; [exact Hd|].
  apply IH. now apply dict_set_wf.
Qed.

(** Two dicts with the same key-value pairs hold the same items, in some
    order. *)
Lemma dict_ext_perm d o :
  dict_wf d -> dict_wf o ->
  (forall k, dict_get k d = dict_get k o) ->
  Permutation d o.
Proof.
  intros Hd Ho Hget.
  apply NoDup_Permutation.
  - eapply NoDup_map_inv. exact Hd.
  - eapply NoDup_map_inv. exact Ho.
  - intros [k v]. rewrite (dict_get_In k v d Hd), (dict_get_In k v o Ho).
    now rewrite Hget.
Qed.

End DictFacts.

(* ================================================================== *)
(** ** Canonical names: properties *)
(* ================================================================== *)

Lemma key_render_le (k1 k2 v1 v2 : string) :
  k1 <> k2 -> String.leb k1 k2 = true -> key_above_eq k2 ->
  String.leb (k1 ++ "=" ++ v1) (k2 ++ "=" ++ v2) = true.
Proof.
  unfold key_above_eq.
  revert k2. induction k1 as [|x k1 IH]; intros [|y k2] Hne Hle Hok.
  - congruence.
  - simpl in Hok. apply andb_prop in Hok as [Hy _].
    unfold String.leb. simpl. unfold Ascii.ltb in Hy.
    destruct (Ascii.compare "=" y); try discriminate. reflexivity.
  - discriminate.
  - simpl in Hok. apply andb_prop in Hok as [_ Hok].
    unfold String.leb in *. simpl in *.
    destruct (Ascii.compare x y) eqn:E; try discriminate; try reflexivity.
    apply Ascii.compare_eq_iff in E. subst y.
    apply IH; auto. congruence.
Qed.

Lemma key_leb_total (a b : string * value) :
  key_leb a b = true \/ key_leb b a = true.
Proof. apply String.leb_total. Qed.

Lemma key_leb_trans (a b c : string * value) :
  le key_leb a b -> le key_leb b c -> le key_leb a c.
Proof. apply string_leb_trans. Qed.

Lemma render_sorted (l : dict value) :
  dict_wf l -> Forall key_above_eq (keys l) ->
  StronglySorted (le key_leb) l ->
  StronglySorted (le String.leb) (map render_item l).
Proof.
  unfold dict_wf. intros Hwf Hok Hs.
  induction Hs as [|a l Hs IH Ha]; simpl; [constructor|].
  simpl in Hwf, Hok.
  inversion Hwf as [|? ? Hk Hd]; subst.
  inversion Hok as [|? ? _ Hok']; subst.
  constructor; [now apply IH|].
  rewrite Forall_forall in *. intros s Hs'.
  apply in_map_iff in Hs' as [b [<- Hb]].
  apply key_render_le.
  - intros E. apply Hk. rewrite E. now apply in_map.
  - now apply Ha.
  - apply Hok'. now apply in_map.
Qed.

(** C7. Two hyperparameter mappings with the same key-value pairs, whatever
    the order they were inserted in, get the same canonical name. *)
Theorem get_name_insertion_order (p1 p2 : dict value) :
  dict_wf p1 -> dict_wf p2 ->
  (forall k, dict_get k p1 = dict_get k p2) ->
  get_name p1 = get_name p2.
Proof.
  intros H1 H2 Hget. unfold get_name. f_equal.
  apply sorted_of_perm.
  - apply String.leb_total.
  - exact string_leb_trans.
  - exact String.leb_antisym.
  - apply Permutation_map. now apply dict_ext_perm.
Qed.

Lemma get_name_insertion_order_witness :
  dict_wf Toy.params_ab /\ dict_wf Toy.params_ba /\
  get_name Toy.params_ab = get_name Toy.params_ba.
Proof.
  assert (H1 : dict_wf Toy.params_ab)
    by (repeat constructor; simpl; intuition discriminate).
  assert (H2 : dict_wf Toy.params_ba)
    by (repeat constructor; simpl; intuition discriminate).
  split; [exact H1|]. split; [exact H2|].
  apply (get_name_insertion_order Toy.params_ab Toy.params_ba H1 H2).
  intros k. simpl.
  destruct (String.eqb_spec k "a") as [->|]; [reflexivity|].
  reflexivity.
Defined.

Example get_name_ab : get_name Toy.params_ab = "a=1,b=2".
Proof. reflexivity. Qed.

Example get_name_ba : get_name Toy.params_ba = "a=1,b=2".
Proof. reflexivity. Qed.

Example get_name_floats :
  get_name Toy.params_lr_momentum = "lr=0.001,momentum=0.9".
Proof. reflexivity. Qed.

(** C8, as stated, fails: with the keys [a] and [a0] the name starts with
    the entry of [a0], since the rendered [a0=1] sorts before [a=1], while
    the keys in alphabetical order give [a] first. *)
Lemma get_name_not_by_keys :
  dict_wf Toy.params_a_a0 /\
  get_name Toy.params_a_a0 = "a0=1,a=1" /\
  name_by_keys Toy.params_a_a0 = "a=1,a0=1" /\
  get_name Toy.params_a_a0 <> name_by_keys Toy.params_a_a0.
Proof.
  split; [repeat constructor; simpl; intuition discriminate|].
  split; [reflexivity|]. split; [reflexivity|]. discriminate.
Qed.

(** C8, amended. The canonical name joins with commas the rendered
    [key=value] entries sorted as whole strings; when the keys are distinct
    and every character of every key sorts after ["="], this is the order of
    the keys, and the name is the one the keys sorted alphabetically give. *)
Theorem get_name_sorted_entries (p : dict value) :
  (exists entries,
      get_name p = String.concat "," entries /\
      Permutation entries (map render_item p) /\
      StronglySorted (le String.leb) entries) /\
  (dict_wf p -> Forall key_above_eq (keys p) -> get_name p = name_by_keys p).
Proof.
  split.
  - exists (sorted String.leb (map render_item p)).
    split; [reflexivity|]. split.
    + apply sorted_perm.
    + apply sorted_sorted; [apply String.leb_total | exact string_leb_trans].
  - intros Hwf Hok. unfold get_name, name_by_keys. f_equal.
    symmetry.
    apply (sorted_unique String.leb String.leb_antisym).
    + apply render_sorted.
      * unfold dict_wf, keys.
        eapply Permutation_NoDup; [|exact Hwf].
        apply Permutation_map, Permutation_sym, sorted_perm.
      * eapply Permutation_Forall; [|exact Hok].
        apply Permutation_map, Permutation_sym, sorted_perm.
      * apply sorted_sorted; [exact key_leb_total | exact key_leb_trans].
    + apply sorted_sorted; [apply String.leb_total | exact string_leb_trans].
    + transitivity (map render_item p);
        [apply Permutation_map, sorted_perm | apply Permutation_sym, sorted_perm].
Qed.

Lemma get_name_sorted_entries_witness :
  dict_wf Toy.params_lr_momentum /\
  Forall key_above_eq (keys Toy.params_lr_momentum) /\
  get_name Toy.params_lr_momentum = name_by_keys Toy.params_lr_momentum.
Proof.
  assert (H1 : dict_wf Toy.params_lr_momentum)
    by (repeat constructor; simpl; intuition discriminate).
  assert (H2 : Forall key_above_eq (keys Toy.params_lr_momentum))
    by (repeat constructor).
  split; [exact H1|]. split; [exact H2|].
  exact (proj2 (get_name_sorted_entries Toy.params_lr_momentum) H1 H2).
Defined.

(* ================================================================== *)
(** ** The loops of a run, in terms of outcomes and events *)
(* ================================================================== *)

Section RunFacts.
Context {C : Collaborators}.
Implicit Types (w : world) (T : list Config) (best : best_info).

Lemma frame_refl w : frame w w [].
Proof. unfold frame. now rewrite app_nil_r. Qed.

Lemma frame_trans w1 w2 w3 e1 e2 :
  frame w1 w2 e1 -> frame w2 w3 e2 -> frame w1 w3 (e1 ++ e2).
Proof.
  unfold frame. intros (A1 & A2 & A3 & A4) (B1 & B2 & B3 & B4).
  rewrite B1, B2, B3, B4, A1, A2, A3, A4, app_assoc. auto.
Qed.

Lemma frame_emit e w : frame w (emit e w) [e].
Proof. unfold frame. simpl. auto. Qed.

Lemma frame_set_collab x w : frame w (set_collab x w) [].
Proof. unfold frame. simpl. now rewrite app_nil_r. Qed.

Lemma arrivals_app (e1 e2 : list event) :
  arrivals (e1 ++ e2) = arrivals e1 ++ arrivals e2.
Proof. apply flat_map_app. Qed.

Lemma best_of_app (l1 l2 : list info) best :
  best_of (l1 ++ l2) best = best_of l2 (best_of l1 best).
Proof. apply fold_left_app. Qed.

Lemma train_one_frame n c w :
  frame w (snd (train_one n c w)) (outcome_events n c (fst (train_one n c w))).
Proof.
  unfold train_one.
  destruct (stopped_early c (collab w)); [apply frame_refl|].
  destruct (load_best_reward _ _) as [rw ep]. simpl.
  unfold frame. simpl. rewrite <- !app_assoc. auto.
Qed.

Lemma train_one_config n c w i sa :
  fst (train_one n c w) = Trained i sa -> config i = c.
Proof.
  unfold train_one.
  destruct (stopped_early c (collab w)); [discriminate|].
  destruct (load_best_reward _ _) as [rw ep]. simpl.
  now intros [= <- _].
Qed.

Lemma outcomes_length n T w : List.length (outcomes n T w) = List.length T.
Proof.
  revert w. induction T as [|c T IH]; intros w; simpl; [reflexivity|].
  destruct (train_one n c w) as [o w1]. simpl. now rewrite IH.
Qed.

(** The loop of lines 86-98 is the fold of its iterations. *)
Lemma train_configs_outcomes n T best results w :
  train_configs n T best results w =
  (best_of (trained (outcomes n T w)) best,
   results ++ candidates (outcomes n T w),
   after_outcomes n T w).
Proof.
  revert best results w.
  induction T as [|c T IH]; intros best results w; simpl.
  - now rewrite app_nil_r.
  - unfold train_one.
    destruct (stopped_early c (collab w)) eqn:E0; simpl.
    + apply IH.
    + destruct (load_best_reward _ _) as [rw ep]. simpl.
      rewrite IH. clear E0.
      destruct (stopped_early c (fit c n (collab w))); simpl; [reflexivity|].
      now rewrite <- app_assoc.
Qed.

Lemma after_outcomes_frame n T w :
  frame w (after_outcomes n T w) (round_events n T (outcomes n T w)).
Proof.
  revert w. induction T as [|c T IH]; intros w; simpl.
  - apply frame_refl.
  - pose proof (train_one_frame n c w) as H1.
    destruct (train_one n c w) as [o w1]. simpl in *.
    unfold round_events. simpl.
    eapply frame_trans; [exact H1 | apply IH].
Qed.

Lemma arrivals_round_events n T w :
  arrivals (round_events n T (outcomes n T w)) = trained (outcomes n T w).
Proof.
  revert w. induction T as [|c T IH]; intros w; simpl; [reflexivity|].
  pose proof (train_one_config n c w) as Hc.
  destruct (train_one n c w) as [o w1]. simpl in *.
  unfold round_events. simpl.
  rewrite arrivals_app. fold (round_events n T (outcomes n T w1)).
  rewrite IH. f_equal.
  destruct o as [|i sa]; [reflexivity|].
  simpl. rewrite <- (Hc i sa eq_refl). now destruct i.
Qed.

Lemma round_events_sweep n T os : Forall sweep_event (round_events n T os).
Proof.
  unfold round_events. apply Forall_flat_map, Forall_forall.
  intros [c [|i sa]] _; simpl; repeat constructor.
Qed.

End RunFacts.

(* ================================================================== *)
(** ** Budget arithmetic: facts *)
(* ================================================================== *)

Section NumericFacts.
Local Open Scope R_scope.

Lemma eta_gt_2 : 2 < eta.
Proof.
  unfold eta. replace 2 with (1 + 1) by lra.
  apply exp_ineq1. lra.
Qed.

Lemma eta_pos : 0 < eta.
Proof. pose proof eta_gt_2. lra. Qed.

Lemma eta_le_3 : eta <= 3.
Proof. exact exp_le_3. Qed.

Lemma ln_eta : ln eta = 1.
Proof. apply ln_exp. Qed.

Lemma logeta_ln (x : R) : logeta x = ln x.
Proof. unfold logeta. rewrite ln_eta. lra. Qed.

(** [Int_part] is the floor. *)
Lemma floor_bounds (x : R) : IZR (Int_part x) <= x < IZR (Int_part x) + 1.
Proof. destruct (base_Int_part x). lra. Qed.

Lemma floor_unique (x : R) (k : Z) : IZR k <= x < IZR k + 1 -> Int_part x = k.
Proof. intros H. symmetry. apply Int_part_spec. lra. Qed.

Lemma floor_nonneg (x : R) : 0 <= x -> (0 <= Int_part x)%Z.
Proof.
  intros H. destruct (floor_bounds x) as [_ H2].
  assert (IZR (-1) < IZR (Int_part x)) as H3 by (simpl; lra).
  apply lt_IZR in H3. lia.
Qed.

(** On a float that is not negative, [int] is the floor. *)
Lemma py_int_floor (x : R) : 0 <= x -> py_int x = Int_part x.
Proof. intros H. unfold py_int. now destruct (Rle_dec 0 x). Qed.


Lemma py_ceil_unique (x : R) (k : Z) : IZR k - 1 < x <= IZR k -> py_ceil x = k.
Proof.
  intros H. unfold py_ceil.
  rewrite (floor_unique (- x) (- k)); [lia|]. rewrite opp_IZR. lra.
Qed.

Lemma powerRZ_eta_pos (k : Z) : 0 < powerRZ eta k.
Proof. apply powerRZ_lt, eta_pos. Qed.

Lemma n_configs_nonneg (n : nat) (i : Z) : 0 <= n_configs (Z.of_nat n) i / eta.
Proof.
  unfold n_configs.
  assert (0 <= IZR (Z.of_nat n)) by (apply IZR_le; lia).
  pose proof (powerRZ_eta_pos (- i)). pose proof eta_pos.
  apply Rmult_le_pos.
  - apply Rmult_le_pos; lra.
  - apply Rlt_le, Rinv_0_lt_compat. lra.
Qed.

(** The number of survivors a round asks for is the floor of
    [n_configs / eta], and it is not negative. *)
Lemma keep_count_floor (n : nat) (i : Z) :
  let x := n_configs (Z.of_nat n) i / eta in
  (0 <= keep_count (n_configs (Z.of_nat n) i))%Z /\
  IZR (keep_count (n_configs (Z.of_nat n) i)) <= x
    < IZR (keep_count (n_configs (Z.of_nat n) i)) + 1.
Proof.
  intros x. unfold keep_count. fold x.
  pose proof (n_configs_nonneg n i) as Hx. fold x in Hx.
  rewrite (py_int_floor x Hx).
  split; [now apply floor_nonneg | apply floor_bounds].
Qed.

End NumericFacts.

(* ================================================================== *)
(** ** Rewards and the selection of survivors *)
(* ================================================================== *)










Lemma slice_to_nonneg {A} (k : Z) (l : list A) :
  (0 <= k)%Z -> slice_to k l = firstn (Z.to_nat k) l.
Proof. intros H. unfold slice_to. destruct (Z.ltb_spec k 0); [lia | reflexivity]. Qed.


Lemma slice_to_incl {A} (k : Z) (l : list A) (x : A) :
  In x (slice_to k l) -> In x l.
Proof.
  unfold slice_to. destruct (k <? 0)%Z; intros H.
  - rewrite <- (firstn_skipn (Z.to_nat (Z.of_nat (List.length l) + k)) l).
    apply in_or_app. now left.
  - rewrite <- (firstn_skipn (Z.to_nat k) l). apply in_or_app. now left.
Qed.





Section Rounds.
Context {C : Collaborators}.
Implicit Types (w : world) (T : list Config) (best : best_info).

Lemma round_outcomes n r i T best w :
  round n r i T best w =
  (select (n_configs n i) (candidates (outcomes (n_iters r i) T w)),
   best_of (trained (outcomes (n_iters r i) T w)) best,
   after_outcomes (n_iters r i) T w).
Proof. unfold round. now rewrite train_configs_outcomes. Qed.



Lemma candidates_In (os : list outcome) (i : info) :
  In i (candidates os) <-> In (Trained i false) os.
Proof.
  unfold candidates. rewrite in_flat_map. split.
  - intros [[|j [|]] [Ho Hi]]; simpl in Hi; try tauto.
    destruct Hi as [->|[]]. exact Ho.
  - intros H. exists (Trained i false). split; [exact H | now left].
Qed.


Lemma outcomes_nth n T w k i sa :
  nth_error (outcomes n T w) k = Some (Trained i sa) ->
  nth_error T k = Some (config i).
Proof.
  revert w k. induction T as [|c T IH]; intros w k; simpl.
  - now destruct k.
  - pose proof (train_one_config n c w) as Hc.
    destruct (train_one n c w) as [o w1]. simpl in Hc.
    destruct k as [|k]; simpl.
    + intros [= ->]. now rewrite (Hc i sa eq_refl).
    + apply IH.
Qed.



End Rounds.

(* ================================================================== *)
(** ** Brackets and the sweep *)
(* ================================================================== *)

Section Sweep.
Context {C : Collaborators}.
Implicit Types (w : world) (T : list Config) (best : best_info)
  (hb : Hyperband) (st : state_t).

Lemma materialise_spec hb ps T w :
  fst (materialise hb ps T w) = T ++ map (make_config hb) ps /\
  frame w (snd (materialise hb ps T w)) (map (save_event hb) ps).
Proof.
  revert T w. induction ps as [|p ps IH]; intros T w; simpl.
  - split; [now rewrite app_nil_r | apply frame_refl].
  - destruct (IH (T ++ [make_config hb p])
                 (emit (save_event hb p)
                    (set_collab (save_config (make_config hb p)
                                   (model_path (args hb)) (data_path (args hb))
                                   (collab w)) w))) as [H1 H2].
    split.
    + unfold save_event in H1. rewrite H1, <- app_assoc. reflexivity.
    + change (save_event hb p :: map (save_event hb) ps)
        with ([save_event hb p] ++ map (save_event hb) ps).
      eapply frame_trans; [|exact H2].
      unfold frame. simpl. auto.
Qed.

Lemma save_events_sweep hb ps : Forall sweep_event (map (save_event hb) ps).
Proof. apply Forall_forall. intros e He. apply in_map_iff in He as [p [<- _]]. exact I. Qed.

Lemma arrivals_save_events hb ps : arrivals (map (save_event hb) ps) = [].
Proof. induction ps as [|p ps IH]; [reflexivity | exact IH]. Qed.

Lemma rounds_spec n r idxs T best w :
  exists evs,
    frame w (snd (rounds n r idxs T best w)) evs /\
    Forall sweep_event evs /\
    snd (fst (rounds n r idxs T best w)) = best_of (arrivals evs) best.
Proof.
  revert T best w. induction idxs as [|i idxs IH]; intros T best w; simpl.
  - exists []. split; [apply frame_refl|]. split; [constructor | reflexivity].
  - rewrite round_outcomes.
    set (os := outcomes (n_iters r i) T w).
    destruct (IH (select (n_configs n i) (candidates os))
                 (best_of (trained os) best)
                 (after_outcomes (n_iters r i) T w)) as (evs & F & S & B).
    exists (round_events (n_iters r i) T os ++ evs).
    split; [eapply frame_trans; [apply after_outcomes_frame | exact F]|].
    split; [apply Forall_app; split; [apply round_events_sweep | exact S]|].
    rewrite B, arrivals_app, best_of_app.
    unfold os. now rewrite arrivals_round_events.
Qed.

(** A bracket either finds its population in the state and runs its rounds,
    or raises [KeyError] before doing anything. *)
Lemma bracket_spec hb st s best w :
  match bracket hb st s best w with
  | (Ok best', w') =>
      state_get s st <> None /\
      exists evs, frame w w' evs /\ Forall sweep_event evs /\
                  best' = best_of (arrivals evs) best
  | (Raise e, w') => e = KeyError /\ w' = w /\ state_get s st = None
  end.
Proof.
  unfold bracket. destruct (state_get s st) as [ps|]; [|now cbn].
  unfold lift.
  destruct (materialise_spec hb ps [] w) as [HT HF].
  destruct (materialise hb ps [] w) as [T w1]. simpl in HT, HF.
  destruct (rounds_spec (Z.of_nat (List.length T)) (r_init (max_iter hb) s)
              (range_up (s + 1)) T best w1) as (evs & F & S & B).
  destruct (rounds _ _ _ T best w1) as [[T' best'] w']. simpl in *.
  split; [discriminate|].
  exists (map (save_event hb) ps ++ evs).
  split; [eapply frame_trans; eauto|].
  split; [apply Forall_app; split; [apply save_events_sweep | exact S]|].
  now rewrite arrivals_app, arrivals_save_events.
Qed.

Lemma sweep_spec hb st ss best w :
  exists evs,
    frame w (snd (sweep hb st ss best w)) evs /\
    Forall sweep_event evs /\
    match fst (sweep hb st ss best w) with
    | Ok best' =>
        best' = best_of (arrivals evs) best /\
        Forall (fun s => state_get s st <> None) ss
    | Raise e =>
        e = KeyError /\ Exists (fun s => state_get s st = None) ss
    end.
Proof.
  revert best w. induction ss as [|s ss IH]; intros best w; simpl.
  - exists []. split; [apply frame_refl|]. split; [constructor|]. split; [reflexivity | constructor].
  - unfold bind. pose proof (bracket_spec hb st s best w) as Hb.
    destruct (bracket hb st s best w) as [[best1|e] w1].
    + destruct Hb as (Hs & evs1 & F1 & S1 & B1).
      destruct (IH best1 w1) as (evs2 & F2 & S2 & R).
      exists (evs1 ++ evs2).
      split; [eapply frame_trans; eauto|].
      split; [apply Forall_app; auto|].
      destruct (fst (sweep hb st ss best1 w1)) as [best2|e].
      * destruct R as [-> Hall]. split; [|now constructor].
        now rewrite arrivals_app, best_of_app, B1.
      * destruct R as [-> Hex]. split; [reflexivity | now apply Exists_cons_tl].
    + destruct Hb as (-> & -> & Hs). simpl.
      exists []. split; [apply frame_refl|]. split; [constructor|].
      split; [reflexivity | now apply Exists_cons_hd].
Qed.

End Sweep.

(* ================================================================== *)
(** ** Loading and generating the state *)
(* ================================================================== *)

Lemma state_set_fresh (s : Z) (v : list (dict value)) (st : state_t) :
  ~ In s (map fst st) -> state_set s v st = st ++ [(s, v)].
Proof.
  induction st as [|[s' v'] st IH]; simpl; intros H; [reflexivity|].
  destruct (Z.eqb_spec s s') as [->|Hne]; [tauto|].
  rewrite IH; tauto.
Qed.

Lemma state_get_app_fresh (s : Z) (st1 st2 : state_t) :
  ~ In s (map fst st1) -> state_get s (st1 ++ st2) = state_get s st2.
Proof.
  induction st1 as [|[s' v'] st1 IH]; simpl; intros H; [reflexivity|].
  destruct (Z.eqb_spec s s') as [->|Hne]; [tauto|].
  apply IH. tauto.
Qed.



Lemma range_down_NoDup (hi : Z) : NoDup (range_down hi).
Proof.
  unfold range_down. apply Finite.Injective_map_NoDup.
  - intros a b. apply Nat2Z.inj.
  - apply NoDup_rev, seq_NoDup.
Qed.

(** What [save_state] writes, [load_state] reads back. *)
Lemma int_keys_to_json (st acc : state_t) :
  NoDup (map fst (acc ++ st)) ->
  int_keys (to_json st) acc = Ok (acc ++ st).
Proof.
  revert acc. induction st as [|[s v] st IH]; intros acc H; simpl.
  - now rewrite app_nil_r.
  - rewrite int_of_str_of_Z. simpl.
    rewrite state_set_fresh.
    + rewrite IH; rewrite <- app_assoc; [reflexivity | exact H].
    + rewrite map_app in H. simpl in H.
      apply NoDup_remove_2 in H. intros Hin. apply H.
      apply in_or_app. now left.
Qed.

Section State.
Context {C : Collaborators}.
Implicit Types (w : world) (hb : Hyperband) (st : state_t).

Lemma sample_params_spec d n w :
  List.length (fst (sample_params d n w)) = n /\
  frame w (snd (sample_params d n w))
        (sample_events d (fst (sample_params d n w))).
Proof.
  revert w. induction n as [|n IH]; intros w; simpl.
  - split; [reflexivity | apply frame_refl].
  - destruct (get_params d (collab w)) as [p x].
    destruct (IH (emit (EvGetParams d p) (set_collab x w))) as [H1 H2].
    destruct (sample_params d n _) as [ps w2]. simpl in *.
    split; [now rewrite H1|].
    change (EvGetParams d p :: sample_events d ps)
      with ([EvGetParams d p] ++ sample_events d ps).
    eapply frame_trans; [|exact H2].
    unfold frame. simpl. auto.
Qed.

Lemma generate_spec hb ss st w :
  NoDup ss -> (forall s, In s ss -> ~ In s (map fst st)) ->
  exists pss,
    Forall2 (population_size hb) ss pss /\
    fst (generate hb ss st w) = st ++ combine ss pss /\
    frame w (snd (generate hb ss st w))
          (sample_events (config_dict hb) (List.concat pss)).
Proof.
  revert st w. induction ss as [|s ss IH]; intros st w Hnd Hfresh; simpl.
  - exists []. split; [constructor|]. split; [now rewrite app_nil_r|].
    apply frame_refl.
  - inversion Hnd as [|? ? Hs Hnd']; subst.
    destruct (sample_params_spec (config_dict hb)
                (Z.to_nat (n_init (B hb) (max_iter hb) s)) w) as [Hl Hf].
    destruct (sample_params _ _ w) as [ps w1]. simpl in Hl, Hf.
    rewrite state_set_fresh by (apply Hfresh; now left).
    destruct (IH (st ++ [(s, ps)]) w1 Hnd') as (pss & F2 & Hst & Hfr).
    { intros s' Hin. rewrite map_app, in_app_iff. simpl.
      intros [H|[<-|[]]]; [|contradiction].
      eapply Hfresh; [right; exact Hin | exact H]. }
    exists (ps :: pss).
    split; [constructor; [exact Hl | exact F2]|].
    split; [rewrite Hst, <- app_assoc; reflexivity|].
    simpl. unfold sample_events in *. rewrite map_app.
    eapply frame_trans; eauto.
Qed.

Lemma obtain_state_loaded hb w json b st :
  state_file w = Some json -> int_keys json [] = Ok (b :: st) ->
  obtain_state hb w = (Ok (b :: st), print MsgLoaded w).
Proof.
  intros Hf Hk. unfold obtain_state, bind, load_state.
  now rewrite Hf, Hk.
Qed.

Lemma obtain_state_bad_key hb w json e :
  state_file w = Some json -> int_keys json [] = Raise e ->
  obtain_state hb w = (Raise e, w).
Proof.
  intros Hf Hk. unfold obtain_state, bind, load_state.
  now rewrite Hf, Hk.
Qed.

Lemma obtain_state_generated hb w :
  state_file w = None \/ state_file w = Some [] ->
  exists pss w1,
    let state := combine (range_down (s_max hb)) pss in
    Forall2 (population_size hb) (range_down (s_max hb)) pss /\
    obtain_state hb w = (Ok state, w1) /\
    config_file w1 = config_file w /\
    best_link w1 = best_link w /\
    state_file w1 = Some (to_json state) /\
    log w1 = log w ++ sample_events (config_dict hb) (List.concat pss)
                   ++ [EvSaveState (to_json state); EvPrint MsgGenerated].
Proof.
  intros Hf.
  destruct (generate_spec hb (range_down (s_max hb)) [] w
              (range_down_NoDup _)) as (pss & F2 & Hst & Hfr);
    [intros ? _ []|].
  simpl in Hst.
  assert (Hgen : obtain_state hb w =
                 (Ok (fst (generate hb (range_down (s_max hb)) [] w)),
                  print MsgGenerated
                    (emit (EvSaveState
                             (to_json (fst (generate hb (range_down (s_max hb)) [] w))))
                       (set_state_file
                          (to_json (fst (generate hb (range_down (s_max hb)) [] w)))
                          (snd (generate hb (range_down (s_max hb)) [] w)))))).
  { unfold obtain_state, bind, load_state.
    destruct Hf as [-> | ->]; simpl; unfold lift;
      destruct (generate hb (range_down (s_max hb)) [] w); reflexivity. }
  rewrite Hst in Hgen.
  eexists pss, _. cbv zeta.
  split; [exact F2|]. split; [exact Hgen|].
  destruct Hfr as (A1 & A2 & A3 & A4). simpl.
  rewrite A1, A3, A4, <- !app_assoc. auto.
Qed.

End State.

(* ================================================================== *)
(** ** The best record *)
(* ================================================================== *)





Lemma sweep_event_keeps_state (evs : list event) :
  Forall sweep_event evs -> Forall keeps_state evs.
Proof. apply Forall_impl. now intros []. Qed.

Lemma int_keys_nonempty items (acc st : state_t) :
  int_keys items acc = Ok st -> acc <> [] -> st <> [].
Proof.
  revert acc. induction items as [|[k v] items IH]; simpl; intros acc.
  - now intros [= ->].
  - destruct (int_of_str k) as [s|]; [|discriminate].
    intros H _. apply (IH _ H). now destruct acc as [|[s' v'] acc]; simpl;
      [|destruct (s =? s')%Z].
Qed.

Lemma int_keys_empty items : int_keys items [] = Ok [] -> items = [].
Proof.
  destruct items as [|[k v] items]; [reflexivity|]. simpl.
  destruct (int_of_str k) as [s|]; [|discriminate].
  intros H. now apply int_keys_nonempty in H.
Qed.

Section Finish.
Context {C : Collaborators}.
Implicit Types (w : world) (hb : Hyperband) (st : state_t).

Lemma run_finish hb w st w1 :
  best_link w = None -> obtain_state hb w = (Ok st, w1) ->
  run hb w = finish hb st w1.
Proof.
  intros Hb Ho. unfold run, finish, bind, gets. rewrite Hb. simpl.
  now rewrite Ho.
Qed.

Lemma run_no_state hb w e w1 :
  best_link w = None -> obtain_state hb w = (Raise e, w1) ->
  run hb w = (Raise e, w1).
Proof.
  intros Hb Ho. unfold run, finish, bind, gets. rewrite Hb. simpl.
  now rewrite Ho.
Qed.

Lemma finish_spec hb st w1 :
  exists evs,
    log (snd (finish hb st w1)) = log w1 ++ evs /\
    config_file (snd (finish hb st w1)) = config_file w1 /\
    state_file (snd (finish hb st w1)) = state_file w1 /\
    Forall keeps_state evs /\
    match fst (finish hb st w1) with
    | Ok _ =>
        exists i before,
          Forall sweep_event before /\
          evs = before ++ final_events i /\
          best_of (arrivals before) Initial = Found i /\
          best_link (snd (finish hb st w1)) = Some (name (config i)) /\
          covers st (range_down (s_max hb))
    | Raise e =>
        e = KeyError /\
        Forall sweep_event evs /\
        best_link (snd (finish hb st w1)) = best_link w1 /\
        (best_of (arrivals evs) Initial = Initial \/
         ~ covers st (range_down (s_max hb)))
    end.
Proof.
  unfold finish, bind.
  destruct (sweep_spec hb st (range_down (s_max hb)) Initial w1)
    as (evs & (F1 & F2 & F3 & F4) & S & R).
  destruct (sweep hb st (range_down (s_max hb)) Initial w1) as [[best|e] w2];
    simpl in *.
  - destruct R as [-> Hcov].
    destruct (best_of (arrivals evs) Initial) as [|i] eqn:Eb; simpl.
    + exists evs. repeat split; auto using sweep_event_keeps_state.
    + exists (evs ++ final_events i). simpl.
      rewrite F1, F2, F4, <- !app_assoc. simpl.
      repeat split; auto.
      * apply Forall_app. split; [now apply sweep_event_keeps_state|].
        repeat constructor.
      * exists i, evs. repeat split; auto.
  - destruct R as [-> Hex].
    exists evs. repeat split; auto using sweep_event_keeps_state.
    right. unfold covers. intros Hall.
    apply Exists_exists in Hex as [s [Hin Hs]].
    rewrite Forall_forall in Hall. now apply (Hall s Hin).
Qed.

End Finish.

(* ================================================================== *)
(** ** Budget arithmetic: the derived quantities *)
(* ================================================================== *)

Section Budget.
Local Open Scope R_scope.

Lemma ln_nonneg (x : R) : 1 <= x -> 0 <= ln x.
Proof.
  intros [H| <-]; [|rewrite ln_1; lra].
  rewrite <- ln_1. apply Rlt_le, ln_increasing; lra.
Qed.

Lemma powerRZ_eta (k : Z) : powerRZ eta k = exp (IZR k).
Proof.
  rewrite powerRZ_Rpower by apply eta_pos.
  unfold Rpower. rewrite ln_eta. f_equal. lra.
Qed.




Lemma s_max_of_1 : s_max_of 1 = 0%Z.
Proof.
  unfold s_max_of. rewrite logeta_ln, ln_1, py_int_floor by lra.
  apply floor_unique. simpl. lra.
Qed.

Lemma B_of_1 : B_of 1 = 1%Z.
Proof. unfold B_of. now rewrite s_max_of_1. Qed.

Lemma n_init_1 : n_init 1 1 0 = 1%Z.
Proof.
  unfold n_init. apply py_ceil_unique. simpl. lra.
Qed.

End Budget.

(* ================================================================== *)
(** ** The run as a whole *)
(* ================================================================== *)



Section Whole.
Context {C : Collaborators}.
Implicit Types (w : world) (hb : Hyperband) (st : state_t).

Lemma arrivals_sample_events d (ps : list (dict value)) :
  arrivals (sample_events d ps) = [].
Proof. induction ps as [|p ps IH]; [reflexivity | exact IH]. Qed.

Lemma obtain_state_spec hb w :
  exists pre,
    Forall (fun e => is_link e = false) pre /\ arrivals pre = [] /\
    match obtain_state hb w with
    | (Ok st, w1) =>
        log w1 = log w ++ pre /\ best_link w1 = best_link w
    | (Raise e, w1) => w1 = w /\ pre = []
    end.
Proof.
  assert (Hgen : state_file w = None \/ state_file w = Some [] ->
                 exists pre,
                   Forall (fun e => is_link e = false) pre /\ arrivals pre = [] /\
                   match obtain_state hb w with
                   | (Ok st, w1) =>
                       log w1 = log w ++ pre /\ best_link w1 = best_link w
                   | (Raise e, w1) => w1 = w /\ pre = []
                   end).
  { intros Hf.
    destruct (obtain_state_generated hb w Hf)
      as (pss & w1 & _ & Ho & _ & Hb & _ & Hl).
    rewrite Ho. eexists. split; [|split; [|split; [exact Hl | exact Hb]]].
    - apply Forall_app. split; [|repeat constructor].
      apply Forall_forall. intros e He.
      apply in_map_iff in He as [p [<- _]]. reflexivity.
    - rewrite arrivals_app. simpl. rewrite app_nil_r.
      apply arrivals_sample_events. }
  destruct (state_file w) as [json|] eqn:Ef; [|apply Hgen; now left].
  destruct (int_keys json []) as [[|b st]|e] eqn:Ek.
  - apply int_keys_empty in Ek. subst json. apply Hgen. now right.
  - rewrite (obtain_state_loaded hb w json b st Ef Ek).
    exists [EvPrint MsgLoaded]. repeat split; auto.
  - rewrite (obtain_state_bad_key hb w json e Ef Ek).
    exists []. repeat split; auto.
Qed.



End Whole.

Section RunTheorems.
Context {C : Collaborators}.
Implicit Types (w : world) (hb : Hyperband) (st : state_t).

(** C6. When the best marker exists, [run] returns at once and normally: it
    prints one message, and nothing else is done; no file of the scheduler
    and nothing the collaborators own is touched. *)
Theorem run_already_complete hb w target :
  best_link w = Some target ->
  run hb w = (Ok tt, print (MsgAlreadyBest target) w) /\
  config_file (snd (run hb w)) = config_file w /\
  state_file (snd (run hb w)) = state_file w /\
  best_link (snd (run hb w)) = best_link w /\
  collab (snd (run hb w)) = collab w /\
  log (snd (run hb w)) = log w ++ [EvPrint (MsgAlreadyBest target)].
Proof.
  intros H.
  assert (E : run hb w = (Ok tt, print (MsgAlreadyBest target) w)).
  { unfold run, bind, gets. now rewrite H. }
  rewrite E. simpl. repeat split; reflexivity.
Qed.



End RunTheorems.

(* ================================================================== *)
(** ** Concrete runs *)
(* ================================================================== *)

Lemma py_round_1 : py_round 1 = 1%Z.
Proof.
  unfold py_round.
  assert (Int_part 1 = 1%Z) as -> by (apply floor_unique; simpl; lra).
  destruct (Rlt_dec (1 - 1) (1 / 2)); [reflexivity | lra].
Qed.

Lemma n_iters_1 : n_iters (r_init 1 0) 0 = 1%Z.
Proof.
  unfold n_iters, r_init. simpl.
  replace (1 * 1 * 1)%R with 1%R by lra. apply py_round_1.
Qed.

(** Evaluation of a run on concrete data, the budget arithmetic left as it
    stands. *)
Ltac run_concrete :=
  cbv -[s_max_of B_of n_init r_init n_iters n_configs keep_count select
        sample_params].

Example init_hb1 :
  init Toy.args1 Toy.defaults1 Toy.w_resume = (Ok Toy.hb1, Toy.w_resume).
Proof. reflexivity. Qed.

(** A resumed search with one configuration: it is trained once, becomes
    the best record and is linked. *)
Example run_resume :
  run Toy.hb1 Toy.w_resume =
  (Ok tt,
   @mkWorld Toy.adapter None (Some Toy.state_json1) (Some "hb/lr=1")
     (Toy.mkToy 2 ["hb/lr=1"] [])
     (let c := mkConfig "hb/lr=1" [("lr", VInt 5); ("batch", VInt 32)] in
      [EvPrint MsgLoaded;
       EvSaveConfig c (Some "model.py") (Some "data");
       EvPrint (MsgTraining "hb/lr=1" 1); EvFit c 1;
       EvLoadBestReward c (Rew 5) 1; EvPrint MsgBlank;
       EvLinkBest "hb/lr=1"; EvPrint (MsgBestConfig "hb/lr=1");
       EvPrint (MsgIterations 1); EvPrint (MsgRow "hb/lr=1" 1)])).
Proof.
  rewrite (run_finish Toy.hb1 Toy.w_resume
             [(0%Z, [Toy.sampled1])] (print MsgLoaded Toy.w_resume)
             eq_refl eq_refl).
  unfold finish.
  change (s_max Toy.hb1) with (s_max_of 1). rewrite s_max_of_1.
  run_concrete. rewrite n_iters_1. reflexivity.
Qed.



Lemma run_already_complete_witness :
  best_link Toy.w_done = Some "hb/lr=1" /\
  run Toy.hb1 Toy.w_done = (Ok tt, print (MsgAlreadyBest "hb/lr=1") Toy.w_done).
Proof.
  split; [reflexivity|].
  exact (proj1 (run_already_complete Toy.hb1 Toy.w_done "hb/lr=1" eq_refl)).
Defined.

(** A first run: one parameter set is sampled, the state is saved, the
    configuration is trained and linked. *)
Example run_fresh :
  run Toy.hb1 Toy.w_fresh =
  (Ok tt,
   @mkWorld Toy.adapter None (Some Toy.state_json1) (Some "hb/lr=1")
     (Toy.mkToy 2 ["hb/lr=1"] [])
     (let c := mkConfig "hb/lr=1" [("lr", VInt 5); ("batch", VInt 32)] in
      [EvGetParams Toy.defaults1 Toy.sampled1;
       EvSaveState Toy.state_json1; EvPrint MsgGenerated;
       EvSaveConfig c (Some "model.py") (Some "data");
       EvPrint (MsgTraining "hb/lr=1" 1); EvFit c 1;
       EvLoadBestReward c (Rew 5) 1; EvPrint MsgBlank;
       EvLinkBest "hb/lr=1"; EvPrint (MsgBestConfig "hb/lr=1");
       EvPrint (MsgIterations 1); EvPrint (MsgRow "hb/lr=1" 1)])).
Proof.
  unfold run, obtain_state, bind, gets, load_state, lift.
  change (s_max Toy.hb1) with (s_max_of 1). rewrite s_max_of_1.
  change (range_down 0) with [0%Z].
  cbn [best_link state_file Toy.w_fresh generate].
  change (B Toy.hb1) with (B_of 1). change (max_iter Toy.hb1) with 1%Z.
  rewrite B_of_1, n_init_1.
  change (Z.to_nat 1) with 1%nat.
  run_concrete. rewrite n_iters_1. reflexivity.
Qed.



(* ================================================================== *)
(** ** Construction and materialisation *)
(* ================================================================== *)

Section InitTheorems.
Context {C : Collaborators}.
Implicit Types (w : world) (hb : Hyperband).

(** [__init__], branch by branch. *)
Lemma init_eval a cd w :
  init a cd w =
  let a' := fst (merge_config a cd (config_file w)) in
  let cd' := snd (merge_config a cd (config_file w)) in
  if negb (truthy_path (model_path a'))
  then (Raise (AssertionError "model"), w)
  else if negb (truthy_path (data_path a'))
  then (Raise (AssertionError "data"), w)
  else match train_epoch a' with
       | None => (Raise (AssertionError "train-epoch"), w)
       | Some m =>
           if (m =? 0)%Z then (Raise (AssertionError "train-epoch"), w)
           else if (m <? 0)%Z then (Raise ValueError, w)
           else (Ok (mkHyperband a' (hyperband_path a') cd' m
                                 (s_max_of m) (B_of m)), w)
       end.
Proof.
  unfold init, bind, gets, assert_, ret, raise.
  destruct (merge_config a cd (config_file w)) as [a' cd']. cbn [fst snd].
  destruct (truthy_path (model_path a')); [|reflexivity].
  destruct (truthy_path (data_path a')); [|reflexivity].
  cbn [negb]. unfold truthy_int.
  destruct (train_epoch a') as [m|]; [|reflexivity].
  destruct (m =? 0)%Z; [reflexivity|]. cbn [negb].
  now destruct (m <? 0)%Z.
Qed.

Lemma init_ok a cd w hb w' :
  init a cd w = (Ok hb, w') ->
  w' = w /\
  args hb = fst (merge_config a cd (config_file w)) /\
  config_dict hb = snd (merge_config a cd (config_file w)) /\
  train_epoch (args hb) = Some (max_iter hb) /\
  (1 <= max_iter hb)%Z /\
  s_max hb = s_max_of (max_iter hb) /\
  B hb = B_of (max_iter hb).
Proof.
  rewrite init_eval. cbv zeta.
  destruct (negb _); [discriminate|].
  destruct (negb _); [discriminate|].
  destruct (train_epoch _) as [m|] eqn:Em; [|discriminate].
  destruct (Z.eqb_spec m 0); [discriminate|].
  destruct (Z.ltb_spec m 0); [discriminate|].
  intros [= <- <-]. cbn. repeat split; auto. lia.
Qed.

(** C9. A persisted configuration replaces the model path, the data path
    and the number of epochs, and its [vars] are merged into the supplied
    defaults, the persisted value winning on a shared key.  When one of the
    three is still unset after that, construction raises an assertion
    error; in every case construction leaves the world as it found it. *)
Theorem init_contract a cd w :
  (forall cf, config_file w = Some cf -> dict_wf (cf_vars cf) ->
     let a' := fst (merge_config a cd (config_file w)) in
     let cd' := snd (merge_config a cd (config_file w)) in
     model_path a' = Some (cf_model cf) /\
     data_path a' = Some (cf_data cf) /\
     train_epoch a' = Some (cf_train_epoch cf) /\
     (forall k, dict_get k cd' =
                match dict_get k (cf_vars cf) with
                | Some v => Some v
                | None => dict_get k cd
                end) /\
     (forall hb w', init a cd w = (Ok hb, w') ->
                    args hb = a' /\ config_dict hb = cd' /\
                    max_iter hb = cf_train_epoch cf)) /\
  (let a' := fst (merge_config a cd (config_file w)) in
   model_path a' = None \/ data_path a' = None \/ train_epoch a' = None ->
   exists msg, init a cd w = (Raise (AssertionError msg), w)) /\
  snd (init a cd w) = w.
Proof.
  split; [|split].
  - intros cf Hcf Hwf. rewrite Hcf. cbn [merge_config fst snd model_path
      data_path train_epoch].
    repeat split.
    + intros k. now apply dict_get_update.
    + apply (init_ok a cd w hb w') in H. rewrite Hcf in H. apply H.
    + apply (init_ok a cd w hb w') in H. rewrite Hcf in H. apply H.
    + apply (init_ok a cd w hb w') in H. rewrite Hcf in H.
      destruct H as (_ & Ha & _ & Ht & _). rewrite Ha in Ht.
      cbn in Ht. congruence.
  - cbv zeta. intros H. rewrite init_eval. cbv zeta.
    destruct H as [H|[H|H]].
    + rewrite H. cbn. eauto.
    + rewrite H. destruct (negb _); cbn; eauto.
    + rewrite H. destruct (negb _); [eauto|]. destruct (negb _); eauto.
  - rewrite init_eval. cbv zeta.
    destruct (negb _); [reflexivity|].
    destruct (negb _); [reflexivity|].
    destruct (train_epoch _) as [m|]; [|reflexivity].
    destruct (m =? 0)%Z; [reflexivity|].
    now destruct (m <? 0)%Z.
Qed.

(** C10. The configuration built from a sampled parameter set is named
    after the sampled parameters as they were before the defaults went in,
    so the name is the same whatever the defaults are; in its parameters a
    key of the defaults has the default's value, also when the sample had
    one, and any other key the sampled value.  The bracket saves exactly
    these configurations, in order. *)
Theorem make_config_merge hb (sampled : dict value) :
  dict_wf (config_dict hb) ->
  let t := make_config hb sampled in
  name t = path_join (hb_path hb) (get_name sampled) /\
  (forall k v, dict_get k (config_dict hb) = Some v ->
               dict_get k (params t) = Some v) /\
  (forall k, dict_get k (config_dict hb) = None ->
             dict_get k (params t) = dict_get k sampled) /\
  (forall hb', hb_path hb' = hb_path hb ->
               name (make_config hb' sampled) = name t) /\
  (forall ps T w,
      fst (materialise hb ps T w) = T ++ map (make_config hb) ps /\
      frame w (snd (materialise hb ps T w)) (map (save_event hb) ps)).
Proof.
  intros Hwf t. unfold t, make_config. cbn [name params].
  split; [reflexivity|].
  split; [intros k v Hk; now rewrite dict_get_update, Hk|].
  split; [intros k Hk; now rewrite dict_get_update, Hk|].
  split; [intros hb' ->; reflexivity|].
  intros. apply materialise_spec.
Qed.


End InitTheorems.

Lemma init_contract_witness :
  config_file Toy.w_configured = Some Toy.persisted1 /\
  dict_wf (cf_vars Toy.persisted1) /\
  dict_get "lr"
    (snd (merge_config Toy.args_unset Toy.defaults1
            (config_file Toy.w_configured))) = Some (VInt 7) /\
  exists msg,
    init Toy.args_unset Toy.defaults1 Toy.w_fresh
    = (Raise (AssertionError msg), Toy.w_fresh).
Proof.
  assert (Hwf : dict_wf (cf_vars Toy.persisted1))
    by (repeat constructor; simpl; intuition discriminate).
  split; [reflexivity|]. split; [exact Hwf|].
  destruct (init_contract Toy.args_unset Toy.defaults1 Toy.w_configured)
    as (Hmerge & _ & _).
  destruct (Hmerge Toy.persisted1 eq_refl Hwf) as (_ & _ & _ & Hget & _).
  split; [rewrite Hget; reflexivity|].
  destruct (init_contract Toy.args_unset Toy.defaults1 Toy.w_fresh)
    as (_ & Hfail & _).
  apply Hfail. left. reflexivity.
Defined.

Example init_configured :
  exists hb,
    init Toy.args_unset Toy.defaults1 Toy.w_configured
      = (Ok hb, Toy.w_configured) /\
    max_iter hb = 8%Z /\
    model_path (args hb) = Some "net.py" /\
    data_path (args hb) = Some "train.h5" /\
    config_dict hb = [("lr", VInt 7); ("batch", VInt 32); ("depth", VInt 3)].
Proof. eexists. repeat split. Qed.

Lemma make_config_merge_witness :
  dict_wf (config_dict Toy.hb1) /\
  name (make_config (C := Toy.adapter) Toy.hb1 Toy.sampled1) = "hb/lr=1" /\
  dict_get "lr" (params (make_config (C := Toy.adapter) Toy.hb1 Toy.sampled1))
    = Some (VInt 5).
Proof.
  assert (Hwf : dict_wf (config_dict Toy.hb1))
    by (repeat constructor; simpl; intuition discriminate).
  split; [exact Hwf|].
  destruct (make_config_merge (C := Toy.adapter) Toy.hb1 Toy.sampled1 Hwf)
    as (Hn & Hd & _).
  split; [rewrite Hn; reflexivity|].
  apply Hd. reflexivity.
Defined.


(* ================================================================== *)
(** ** The budget of a search with [max_epoch = 8] *)
(* ================================================================== *)

Section Scenario.
Local Open Scope R_scope.

Lemma exp_double (x : R) : exp (x + x) = exp x * exp x.
Proof. apply exp_plus. Qed.

Lemma sq_lt (a b : R) : 0 < a -> a < b -> a * a < b * b.
Proof. intros. nra. Qed.

(** [e] above 2.6765, from [1 + x < exp x] at [x = 1/32] squared five
    times. *)
Lemma eta_lower : 26765 / 10000 < eta.
Proof.
  unfold eta.
  assert (H0 : 33 / 32 < exp (1 / 32)).
  { replace (33 / 32) with (1 + 1 / 32) by lra. apply exp_ineq1. lra. }
  assert (H1 : 106347 / 100000 < exp (1 / 16)).
  { replace (1 / 16) with (1 / 32 + 1 / 32) by lra. rewrite exp_double.
    pose proof (sq_lt (33 / 32) _ ltac:(lra) H0). lra. }
  assert (H2 : 113096 / 100000 < exp (1 / 8)).
  { replace (1 / 8) with (1 / 16 + 1 / 16) by lra. rewrite exp_double.
    pose proof (sq_lt (106347 / 100000) _ ltac:(lra) H1). lra. }
  assert (H3 : 127907 / 100000 < exp (1 / 4)).
  { replace (1 / 4) with (1 / 8 + 1 / 8) by lra. rewrite exp_double.
    pose proof (sq_lt (113096 / 100000) _ ltac:(lra) H2). lra. }
  assert (H4 : 163602 / 100000 < exp (1 / 2)).
  { replace (1 / 2) with (1 / 4 + 1 / 4) by lra. rewrite exp_double.
    pose proof (sq_lt (127907 / 100000) _ ltac:(lra) H3). lra. }
  replace (exp 1) with (exp (1 / 2 + 1 / 2)) by (f_equal; lra).
  rewrite exp_double.
  pose proof (sq_lt (163602 / 100000) _ ltac:(lra) H4). lra.
Qed.

(** [e] below 2.8088, from [1 - x < exp (- x)] at [x = 1/16] squared four
    times. *)
Lemma eta_upper : eta < 28088 / 10000.
Proof.
  unfold eta.
  assert (H0 : exp (1 / 16) < 106667 / 100000).
  { assert (15 / 16 < exp (- (1 / 16))) as H.
    { replace (15 / 16) with (1 + - (1 / 16)) by lra. apply exp_ineq1. lra. }
    rewrite exp_Ropp in H.
    pose proof (exp_pos (1 / 16)).
    apply Rmult_lt_reg_r with (/ exp (1 / 16)); [now apply Rinv_0_lt_compat|].
    rewrite Rinv_r by lra. lra. }
  pose proof (exp_pos (1 / 16)) as P0.
  assert (H1 : exp (1 / 8) < 113779 / 100000).
  { replace (1 / 8) with (1 / 16 + 1 / 16) by lra. rewrite exp_double.
    pose proof (sq_lt _ _ P0 H0). lra. }
  pose proof (exp_pos (1 / 8)) as P1.
  assert (H2 : exp (1 / 4) < 129457 / 100000).
  { replace (1 / 4) with (1 / 8 + 1 / 8) by lra. rewrite exp_double.
    pose proof (sq_lt _ _ P1 H1). lra. }
  pose proof (exp_pos (1 / 4)) as P2.
  assert (H3 : exp (1 / 2) < 167592 / 100000).
  { replace (1 / 2) with (1 / 4 + 1 / 4) by lra. rewrite exp_double.
    pose proof (sq_lt _ _ P2 H2). lra. }
  pose proof (exp_pos (1 / 2)) as P3.
  replace (exp 1) with (exp (1 / 2 + 1 / 2)) by (f_equal; lra).
  rewrite exp_double.
  pose proof (sq_lt _ _ P3 H3). lra.
Qed.

Lemma inv_eta_bounds : 10000 / 28088 < / eta < 10000 / 26765.
Proof.
  pose proof eta_lower. pose proof eta_upper.
  assert (eta * / eta = 1) by (apply Rinv_r; lra).
  assert (0 < / eta) by (apply Rinv_0_lt_compat; lra).
  split; nra.
Qed.

Lemma py_round_unique (x : R) (k : Z) :
  IZR k - 1 / 2 < x < IZR k + 1 / 2 -> py_round x = k.
Proof.
  intros [Hlo Hhi]. unfold py_round.
  destruct (Rle_lt_dec (IZR k) x) as [Hge|Hlt].
  - rewrite (floor_unique x k) by lra.
    destruct (Rlt_dec (x - IZR k) (1 / 2)); [reflexivity | lra].
  - rewrite (floor_unique x (k - 1)) by (rewrite minus_IZR; lra).
    rewrite minus_IZR.
    destruct (Rlt_dec (x - (IZR k - 1)) (1 / 2)); [lra|].
    destruct (Rlt_dec (1 / 2) (x - (IZR k - 1))); [lia | lra].
Qed.

Example s_max_of_8 : s_max_of 8 = 2%Z.
Proof.
  pose proof eta_lower as Hl. pose proof eta_upper as Hu.
  unfold s_max_of. rewrite logeta_ln, py_int_floor by (apply ln_nonneg; lra).
  apply floor_unique. split.
  - apply Rlt_le, exp_lt_inv. rewrite exp_ln by lra.
    replace (IZR 2) with (1 + 1) by lra. rewrite exp_plus.
    fold eta. nra.
  - apply exp_lt_inv. rewrite exp_ln by lra.
    replace (IZR 2 + 1) with (1 + (1 + 1)) by lra. rewrite !exp_plus.
    fold eta. nra.
Qed.

Example B_of_8 : B_of 8 = 24%Z.
Proof. unfold B_of. now rewrite s_max_of_8. Qed.

Example n_init_8_2 : n_init 24 8 2 = 8%Z.
Proof.
  pose proof eta_lower as Hl. pose proof eta_upper as Hu.
  unfold n_init. apply py_ceil_unique. simpl. nra.
Qed.

Example n_init_8_1 : n_init 24 8 1 = 5%Z.
Proof.
  pose proof eta_lower as Hl. pose proof eta_upper as Hu.
  unfold n_init. apply py_ceil_unique. simpl. lra.
Qed.

Example n_init_8_0 : n_init 24 8 0 = 3%Z.
Proof. unfold n_init. apply py_ceil_unique. simpl. lra. Qed.

Example keep_count_8_0 : keep_count (n_configs 8 0) = 2%Z.
Proof.
  pose proof inv_eta_bounds as Hi.
  unfold keep_count, n_configs. simpl. unfold Rdiv.
  rewrite py_int_floor by lra. apply floor_unique. lra.
Qed.

Example keep_count_8_1 : keep_count (n_configs 8 1) = 1%Z.
Proof.
  pose proof inv_eta_bounds as Hi. pose proof eta_pos.
  unfold keep_count, n_configs. simpl. unfold Rdiv.
  rewrite Rmult_1_r.
  rewrite py_int_floor by nra. apply floor_unique. nra.
Qed.

Example n_iters_8_2_0 : n_iters (r_init 8 2) 0 = 1%Z.
Proof.
  pose proof inv_eta_bounds as Hi. pose proof eta_pos.
  unfold n_iters, r_init. simpl. apply py_round_unique.
  rewrite !Rmult_1_r, Rinv_mult.
  destruct Hi as [Hlo Hhi].
  pose proof (sq_lt (10000 / 28088) _ ltac:(lra) Hlo).
  pose proof (sq_lt (/ eta) (10000 / 26765) ltac:(lra) Hhi).
  lra.
Qed.

Example n_iters_8_2_1 : n_iters (r_init 8 2) 1 = 3%Z.
Proof.
  pose proof inv_eta_bounds as Hi. pose proof eta_pos.
  unfold n_iters, r_init. simpl. apply py_round_unique.
  rewrite !Rmult_1_r, Rinv_mult.
  replace (8 * (/ eta * / eta) * eta) with (8 * / eta * (eta * / eta)) by ring.
  rewrite Rinv_r by lra. lra.
Qed.

Example n_iters_8_2_2 : n_iters (r_init 8 2) 2 = 8%Z.
Proof.
  pose proof eta_pos.
  unfold n_iters, r_init. simpl. apply py_round_unique.
  rewrite !Rmult_1_r.
  replace (8 * / (eta * eta) * (eta * eta)) with 8 by (field; lra).
  simpl. lra.
Qed.

Example keep_count_3_0 : keep_count (n_configs 3 0) = 1%Z.
Proof.
  pose proof inv_eta_bounds as Hi.
  unfold keep_count, n_configs. simpl. unfold Rdiv.
  rewrite py_int_floor by lra. apply floor_unique. lra.
Qed.

End Scenario.

(** A round of three configurations: the first has the greatest reward and
    stops early when fitted; it becomes the best record and does not
    survive; of the other two the round keeps [floor (3 / e) = 1]. *)
Example round_drops_early_stopped :
  fst (round 3 (r_init 1 0) 0 [Toy.c_stop; Toy.c_mid; Toy.c_low]
         Initial Toy.w_fresh)
  = ([Toy.c_mid], Found (mkInfo (Rew 3) Toy.c_stop 1)) /\
  outcomes 1 [Toy.c_stop; Toy.c_mid; Toy.c_low] Toy.w_fresh
  = [Trained (mkInfo (Rew 3) Toy.c_stop 1) true;
     Trained (mkInfo (Rew 2) Toy.c_mid 1) false;
     Trained (mkInfo (Rew 1) Toy.c_low 1) false].
Proof.
  split; [|reflexivity].
  rewrite round_outcomes, n_iters_1. cbn [fst].
  unfold select. rewrite keep_count_3_0. reflexivity.
Qed.

(* ================================================================== *)
(** ** More on the budget: epochs per fit, brackets, eliminations *)
(* ================================================================== *)

Section BudgetShape.
Local Open Scope R_scope.




Lemma powerRZ_eta_mono (a b : Z) :
  (a <= b)%Z -> powerRZ eta a <= powerRZ eta b.
Proof.
  intros H. rewrite !powerRZ_eta.
  apply IZR_le in H. destruct H as [H|H].
  - left. now apply exp_increasing.
  - right. now rewrite H.
Qed.





(** A round asks for fewer survivors than the bracket started with. *)
Theorem keep_count_less (n : nat) (i : Z) :
  (1 <= n)%nat -> (0 <= i)%Z ->
  (0 <= keep_count (n_configs (Z.of_nat n) i) < Z.of_nat n)%Z.
Proof.
  intros Hn Hi.
  destruct (keep_count_floor n i) as [H0 [Hlo _]].
  split; [exact H0|].
  apply lt_IZR. eapply Rle_lt_trans; [exact Hlo|].
  unfold n_configs.
  assert (0 < IZR (Z.of_nat n)) as Hn' by (apply IZR_lt; lia).
  pose proof eta_gt_2 as He.
  pose proof (powerRZ_eta_mono (- i) 0 ltac:(lia)) as Hp.
  rewrite powerRZ_O in Hp.
  pose proof (powerRZ_eta_pos (- i)) as Pp.
  assert (0 < / eta < 1) as [Hi0 Hi1].
  { split; [apply Rinv_0_lt_compat; lra|].
    rewrite <- Rinv_1. apply Rinv_lt_contravar; lra. }
  assert (powerRZ eta (- i) * / eta < 1) as Hpv by nra.
  unfold Rdiv. rewrite Rmult_assoc.
  rewrite <- (Rmult_1_r (IZR (Z.of_nat n))) at 2.
  now apply Rmult_lt_compat_l.
Qed.

End BudgetShape.

(* ================================================================== *)
(** ** What a round keeps, and what a run fits *)
(* ================================================================== *)

Section Survivors.
Context {C : Collaborators}.
Implicit Types (w : world) (T : list Config) (best : best_info)
  (hb : Hyperband) (st : state_t).

Lemma select_incl x n T w c :
  In c (select x (candidates (outcomes n T w))) -> In c T.
Proof.
  unfold select. intros Hin.
  apply in_map_iff in Hin as [j [<- Hj]].
  apply slice_to_incl in Hj.
  apply (Permutation_in _ (sorted_perm reward_geb _)) in Hj.
  apply candidates_In, In_nth_error in Hj as [k Hk].
  apply outcomes_nth in Hk. eapply nth_error_In. exact Hk.
Qed.

Lemma candidates_length (os : list outcome) :
  (List.length (candidates os) <= List.length os)%nat.
Proof.
  induction os as [|[|i [|]] os IH]; simpl; lia.
Qed.

(** The configurations a round keeps are among those it was given, and
    they are fewer than the bracket started with. *)
Theorem round_shrinks (n : nat) (r : R) (i : Z) T best w :
  (1 <= n)%nat -> (0 <= i)%Z ->
  let T' := fst (fst (round (Z.of_nat n) r i T best w)) in
  incl T' T /\
  (List.length T' <= List.length T)%nat /\
  (List.length T' < n)%nat.
Proof.
  intros Hn Hi T'. unfold T'. rewrite round_outcomes. cbn [fst].
  destruct (keep_count_less n i Hn Hi) as [H0 Hlt].
  set (os := outcomes (n_iters r i) T w).
  assert (Hlen : List.length (select (n_configs (Z.of_nat n) i) (candidates os))
                 = Nat.min (Z.to_nat (keep_count (n_configs (Z.of_nat n) i)))
                           (List.length (candidates os))).
  { unfold select. rewrite length_map, slice_to_nonneg by exact H0.
    rewrite length_firstn. unfold sort_results. now rewrite sorted_length. }
  split; [intros c; apply select_incl|].
  pose proof (candidates_length os) as Hc.
  unfold os in Hc at 2. rewrite outcomes_length in Hc.
  split; lia.
Qed.

Lemma round_events_fit n T os c k :
  In (EvFit c k) (round_events n T os) -> In c T /\ k = n.
Proof.
  unfold round_events. rewrite in_flat_map.
  intros [[c0 o] [Hco Hin]]. simpl in Hin.
  apply in_combine_l in Hco.
  destruct o as [|j sa]; simpl in Hin; [tauto|].
  destruct Hin as [H|[H|[H|[H|[]]]]]; try discriminate.
  injection H as <- <-. auto.
Qed.

Lemma rounds_fits n r idxs T best w :
  exists evs,
    log (snd (rounds n r idxs T best w)) = log w ++ evs /\
    forall c k, In (EvFit c k) evs -> In c T.
Proof.
  revert T best w. induction idxs as [|i idxs IH]; intros T best w; simpl.
  - exists []. split; [now rewrite app_nil_r | intros c k []].
  - rewrite round_outcomes.
    set (os := outcomes (n_iters r i) T w).
    destruct (IH (select (n_configs n i) (candidates os))
                 (best_of (trained os) best)
                 (after_outcomes (n_iters r i) T w)) as (evs & Hl & Hf).
    destruct (after_outcomes_frame (n_iters r i) T w) as (_ & _ & _ & Hl0).
    exists (round_events (n_iters r i) T os ++ evs).
    split; [rewrite Hl, Hl0, app_assoc; reflexivity|].
    intros c k Hin. apply in_app_iff in Hin as [Hin|Hin].
    + now apply round_events_fit in Hin.
    + apply Hf in Hin. unfold os in Hin. now apply select_incl in Hin.
Qed.

Lemma saved_then_fitted_none hb st evs :
  (forall c k, ~ In (EvFit c k) evs) -> saved_then_fitted hb st evs.
Proof.
  intros H pre c k post E. exfalso. apply (H c k). rewrite E.
  apply in_or_app. right. now left.
Qed.

Lemma saved_then_fitted_app hb st evs1 evs2 :
  saved_then_fitted hb st evs1 -> saved_then_fitted hb st evs2 ->
  saved_then_fitted hb st (evs1 ++ evs2).
Proof.
  intros H1 H2 pre c k post E.
  apply app_eq_app in E as [l [[E1 E2]|[E1 E2]]].
  - destruct l as [|x l].
    + rewrite app_nil_r in E1. subst pre. simpl in E2.
      destruct (H2 [] c k post (eq_sym E2)) as [[] _].
    + injection E2 as <- E2. exact (H1 pre c k l E1).
  - subst pre. destruct (H2 l c k post E2) as [Hs Hp].
    split; [apply in_or_app; now right | exact Hp].
Qed.

Lemma bracket_fits hb st s best w :
  exists evs,
    log (snd (bracket hb st s best w)) = log w ++ evs /\
    saved_then_fitted hb st evs.
Proof.
  unfold bracket. destruct (state_get s st) as [ps|] eqn:Es.
  - unfold lift.
    destruct (materialise_spec hb ps [] w) as [HT (_ & _ & _ & Hl0)].
    destruct (materialise hb ps [] w) as [T w1]. simpl in HT, Hl0.
    destruct (rounds_fits (Z.of_nat (List.length T)) (r_init (max_iter hb) s)
                (range_up (s + 1)) T best w1) as (evs & Hl & Hf).
    destruct (rounds _ _ _ T best w1) as [[T' best'] w']. simpl in *.
    exists (map (save_event hb) ps ++ evs).
    split; [rewrite Hl, Hl0, app_assoc; reflexivity|].
    assert (Hfit : forall pre c k post,
               evs = pre ++ EvFit c k :: post ->
               In (EvSaveConfig c (model_path (args hb)) (data_path (args hb)))
                  (map (save_event hb) ps) /\
               exists s0 ps0 p,
                 state_get s0 st = Some ps0 /\ In p ps0 /\ c = make_config hb p).
    { intros pre c k post E.
      assert (In c T) as Hc.
      { apply (Hf c k). rewrite E. apply in_or_app. right. now left. }
      rewrite HT in Hc. apply in_map_iff in Hc as [p [<- Hp]].
      split.
      - apply in_map_iff. exists p. auto.
      - exists s, ps, p. auto. }
    intros pre c k post E.
    apply app_eq_app in E as [l [[E1 E2]|[E1 E2]]].
    + destruct l as [|x l].
      * rewrite app_nil_r in E1. subst pre. simpl in E2.
        exact (Hfit [] c k post (eq_sym E2)).
      * exfalso. injection E2 as <- E2.
        assert (In (EvFit c k) (map (save_event hb) ps)) as Hin
          by (rewrite E1; apply in_or_app; right; now left).
        apply in_map_iff in Hin as [p [Hp _]]. discriminate.
    + subst pre. destruct (Hfit l c k post E2) as [Hs Hp].
      split; [apply in_or_app; now left | exact Hp].
  - exists []. cbn. split; [now rewrite app_nil_r|].
    apply saved_then_fitted_none. intros c k [].
Qed.

End Survivors.

Section RunMore.
Context {C : Collaborators}.
Implicit Types (w : world) (hb : Hyperband) (st : state_t).

Lemma sweep_fits hb st ss best w :
  exists evs,
    log (snd (sweep hb st ss best w)) = log w ++ evs /\
    saved_then_fitted hb st evs.
Proof.
  revert best w. induction ss as [|s ss IH]; intros best w; simpl.
  - exists []. split; [now rewrite app_nil_r|].
    apply saved_then_fitted_none. intros c k [].
  - unfold bind.
    destruct (bracket_fits hb st s best w) as (evs1 & Hl1 & Hf1).
    destruct (bracket hb st s best w) as [[best1|e] w1]; simpl in Hl1.
    + destruct (IH best1 w1) as (evs2 & Hl2 & Hf2).
      exists (evs1 ++ evs2).
      split; [rewrite Hl2, Hl1, app_assoc; reflexivity|].
      now apply saved_then_fitted_app.
    + exists evs1. auto.
Qed.

Lemma finish_fits hb st w1 :
  exists evs,
    log (snd (finish hb st w1)) = log w1 ++ evs /\
    saved_then_fitted hb st evs.
Proof.
  unfold finish, bind.
  destruct (sweep_fits hb st (range_down (s_max hb)) Initial w1)
    as (evs & Hl & Hf).
  destruct (sweep hb st (range_down (s_max hb)) Initial w1) as [[best|e] w2];
    simpl in Hl; [|exists evs; auto].
  destruct best as [|i]; simpl; [exists evs; auto|].
  exists (evs ++ final_events i).
  split; [rewrite Hl, <- !app_assoc; reflexivity|].
  apply saved_then_fitted_app; [exact Hf|].
  apply saved_then_fitted_none.
  intros c k [H|[H|[H|[H|[]]]]]; discriminate.
Qed.

(** Whatever a run fits is a configuration built from a parameter set of
    the state it obtained, and was saved earlier in the same run. *)
Theorem run_fits_saved_configs hb w st w1 :
  best_link w = None -> obtain_state hb w = (Ok st, w1) ->
  exists evs,
    log (snd (run hb w)) = log w1 ++ evs /\
    saved_then_fitted hb st evs.
Proof.
  intros Hb Ho. rewrite (run_finish hb w st w1 Hb Ho). apply finish_fits.
Qed.

(** A run that returned normally has left the marker: running again does
    nothing but report it. *)
Theorem run_twice hb w w' :
  run hb w = (Ok tt, w') ->
  exists target,
    best_link w' = Some target /\
    run hb w' = (Ok tt, print (MsgAlreadyBest target) w').
Proof.
  intros Hr.
  assert (Hlink : exists target, best_link w' = Some target).
  { destruct (best_link w) as [target|] eqn:Hb.
    - exists target. unfold run, bind, gets in Hr. rewrite Hb in Hr.
      injection Hr as <-. exact Hb.
    - destruct (obtain_state hb w) as [[st|e] w1] eqn:Eo.
      + rewrite (run_finish hb w st w1 Hb Eo) in Hr.
        destruct (finish_spec hb st w1) as (evs & _ & _ & _ & _ & R).
        rewrite Hr in R. simpl in R.
        destruct R as (i & before & _ & _ & _ & Hl & _). eauto.
      + rewrite (run_no_state hb w e w1 Hb Eo) in Hr. discriminate. }
  destruct Hlink as [target Ht]. exists target. split; [exact Ht|].
  unfold run, bind, gets. now rewrite Ht.
Qed.

(** [run] never writes the scheduler's configuration file. *)
Theorem run_keeps_config_file hb w :
  config_file (snd (run hb w)) = config_file w.
Proof.
  destruct (best_link w) as [target|] eqn:Hb.
  - unfold run, bind, gets. now rewrite Hb.
  - assert (Ho : forall st w1, obtain_state hb w = (Ok st, w1) ->
                               config_file w1 = config_file w).
    { intros st w1 Eo.
      destruct (state_file w) as [json|] eqn:Ef.
      - destruct (int_keys json []) as [[|b st']|e] eqn:Ek.
        + apply int_keys_empty in Ek. subst json.
          destruct (obtain_state_generated hb w (or_intror Ef))
            as (pss & w2 & _ & Ho & Hc & _).
          rewrite Ho in Eo. now injection Eo as _ <-.
        + rewrite (obtain_state_loaded hb w json b st' Ef Ek) in Eo.
          now injection Eo as _ <-.
        + rewrite (obtain_state_bad_key hb w json e Ef Ek) in Eo.
          discriminate.
      - destruct (obtain_state_generated hb w (or_introl Ef))
          as (pss & w2 & _ & Ho & Hc & _).
        rewrite Ho in Eo. now injection Eo as _ <-. }
    destruct (obtain_state hb w) as [[st|e] w1] eqn:Eo.
    + rewrite (run_finish hb w st w1 Hb Eo).
      destruct (finish_spec hb st w1) as (evs & _ & Hc & _).
      rewrite Hc. now apply (Ho st).
    + rewrite (run_no_state hb w e w1 Hb Eo). simpl.
      destruct (obtain_state_spec hb w) as (pre & _ & _ & R).
      rewrite Eo in R. destruct R as [-> _]. reflexivity.
Qed.

Lemma range_down_cons (hi : Z) :
  (0 <= hi)%Z -> range_down hi = hi :: range_down (hi - 1).
Proof.
  intros H. unfold range_down.
  replace (Z.to_nat (hi + 1)) with (S (Z.to_nat hi)) by lia.
  replace (hi - 1 + 1)%Z with hi by lia.
  rewrite seq_S, rev_app_distr. simpl. f_equal. lia.
Qed.

(** A loaded state without the first bracket of the sweep: the run raises
    [KeyError] having done nothing but report the load. *)
Theorem run_missing_bracket hb w json b st :
  best_link w = None ->
  state_file w = Some json -> int_keys json [] = Ok (b :: st) ->
  (0 <= s_max hb)%Z -> state_get (s_max hb) (b :: st) = None ->
  run hb w = (Raise KeyError, print MsgLoaded w).
Proof.
  intros Hb Hf Hk Hs Hget.
  rewrite (run_finish hb w _ _ Hb (obtain_state_loaded hb w json b st Hf Hk)).
  unfold finish. rewrite (range_down_cons _ Hs).
  cbn [sweep]. unfold bind, bracket. now rewrite Hget.
Qed.


(** What [save_state] writes, [load_state] reads back, for a state with
    one entry per bracket. *)
Theorem save_load_state st w :
  NoDup (map fst st) ->
  load_state (snd (save_state st w)) = (Ok (Some st), snd (save_state st w)).
Proof.
  intros Hnd. unfold load_state, save_state, modify. cbn.
  now rewrite (int_keys_to_json st [] Hnd).
Qed.


End RunMore.

(* ================================================================== *)
(** ** Concrete instances of the further properties *)
(* ================================================================== *)



Lemma round_shrinks_witness :
  let T' := fst (fst (round (C := Toy.adapter) (Z.of_nat 3) (r_init 1 0) 0
                        [Toy.c_stop; Toy.c_mid; Toy.c_low] Initial Toy.w_fresh)) in
  incl T' [Toy.c_stop; Toy.c_mid; Toy.c_low] /\
  (List.length T' <= 3)%nat /\ (List.length T' < 3)%nat.
Proof.
  apply (round_shrinks (C := Toy.adapter) 3 (r_init 1 0) 0
           [Toy.c_stop; Toy.c_mid; Toy.c_low] Initial Toy.w_fresh); lia.
Defined.

Lemma run_fits_saved_configs_witness :
  exists evs,
    log (snd (run Toy.hb1 Toy.w_resume))
      = log (print MsgLoaded Toy.w_resume) ++ evs /\
    saved_then_fitted (C := Toy.adapter) Toy.hb1 Inputs.state1 evs.
Proof.
  exact (run_fits_saved_configs Toy.hb1 Toy.w_resume Inputs.state1
           (print MsgLoaded Toy.w_resume) eq_refl eq_refl).
Defined.

Lemma run_twice_witness :
  exists target,
    best_link (snd (run Toy.hb1 Toy.w_resume)) = Some target /\
    run Toy.hb1 (snd (run Toy.hb1 Toy.w_resume))
      = (Ok tt, print (MsgAlreadyBest target) (snd (run Toy.hb1 Toy.w_resume))).
Proof.
  apply (run_twice Toy.hb1 Toy.w_resume).
  rewrite run_resume. reflexivity.
Defined.

Lemma run_missing_bracket_witness :
  run Toy.hb1 Inputs.w_wrong_bracket
    = (Raise KeyError, print MsgLoaded Inputs.w_wrong_bracket).
Proof.
  apply (run_missing_bracket Toy.hb1 Inputs.w_wrong_bracket
           [("1", [Toy.sampled1])] (1%Z, [Toy.sampled1]) []);
    try reflexivity.
  - change (s_max Toy.hb1) with (s_max_of 1). rewrite s_max_of_1. lia.
  - change (s_max Toy.hb1) with (s_max_of 1). rewrite s_max_of_1. reflexivity.
Defined.




Lemma save_load_state_witness :
  load_state (snd (save_state Inputs.state1 Toy.w_fresh))
    = (Ok (Some Inputs.state1), snd (save_state Inputs.state1 Toy.w_fresh)).
Proof.
  apply (save_load_state (C := Toy.adapter) Inputs.state1 Toy.w_fresh).
  repeat constructor. simpl. tauto.
Defined.

(* ================================================================== *)
(** ** The [cache] decorator: properties *)
(* ================================================================== *)

Section CacheFacts.
Context {A V St : Type} (f : A -> St -> option V * St).

Lemma calls_cached (l : list A) (c : Cache.closure V St) (v : V) :
  Cache.cached_output c = Some v ->
  Cache.calls f l c = (repeat (Some v) (List.length l), c).
Proof.
  intros Hc. induction l as [|a l IH]; [reflexivity|].
  simpl. unfold Cache.wrapper. rewrite Hc, IH. reflexivity.
Qed.

(** Once the decorated function has returned a value, every later call
    returns that value, whatever its arguments, and the function is not
    called again. *)
Theorem cache_first_value (a : A) (s : St) (v : V) (l : list A) :
  fst (f a s) = Some v ->
  Cache.calls f (a :: l) (Cache.cache s) =
  (repeat (Some v) (S (List.length l)),
   Cache.mkClosure (Some v) (snd (f a s))).
Proof.
  intros Hf. simpl. unfold Cache.wrapper. simpl.
  destruct (f a s) as [out s1]. simpl in *. subst out.
  now rewrite (calls_cached l (Cache.mkClosure (Some v) s1) v eq_refl).
Qed.

(** A result of [None] is not kept: as long as the decorated function
    returns [None] the wrapper calls it again each time, with the
    arguments of that call. *)
Theorem cache_none_recomputed (l : list A) (s : St) :
  Forall (fun out => out = None) (fst (Cache.plain_calls f l s)) ->
  Cache.calls f l (Cache.cache s) =
  (fst (Cache.plain_calls f l s),
   Cache.mkClosure None (snd (Cache.plain_calls f l s))).
Proof.
  revert s. induction l as [|a l IH]; intros s H; [reflexivity|].
  simpl in *. unfold Cache.wrapper. simpl.
  destruct (f a s) as [out s1].
  destruct (Cache.plain_calls f l s1) as [outs s2] eqn:E. simpl in *.
  inversion H as [|? ? Ho Hl]; subst.
  specialize (IH s1). rewrite E in IH. simpl in IH.
  unfold Cache.cache in IH. now rewrite (IH Hl).
Qed.

End CacheFacts.

Lemma cache_first_value_witness :
  Cache.calls Cache.echo [1; 2; 3]%Z (Cache.cache 0%nat) =
  ([Some 1; Some 1; Some 1]%Z, Cache.mkClosure (Some 1%Z) 1%nat).
Proof.
  exact (cache_first_value Cache.echo 1%Z 0%nat 1%Z [2; 3]%Z eq_refl).
Defined.

Lemma cache_none_recomputed_witness :
  Cache.calls Cache.silent [1; 2; 3]%Z (Cache.cache 0%nat) =
  ([None; None; None], Cache.mkClosure None 3%nat).
Proof.
  apply (cache_none_recomputed Cache.silent [1; 2; 3]%Z 0%nat).
  repeat constructor.
Defined.

(* ================================================================== *)
(** ** The command line: properties *)
(* ================================================================== *)

Lemma remove_all (l acc : list string) :
  (forall x, In x acc -> In x l) ->
  fold_left (fun a n => remove string_dec n a) l acc = [].
Proof.
  revert acc. induction l as [|n l IH]; intros acc H; simpl.
  - destruct acc as [|x acc]; [reflexivity|]. destruct (H x). now left.
  - apply IH. intros x Hx. apply in_remove in Hx as [Hx Hne].
    destruct (H x Hx); [congruence | assumption].
Qed.

Lemma filter_remove_dropped (k : string -> bool) (n : string) (l : list string) :
  k n = false -> filter k (remove string_dec n l) = filter k l.
Proof.
  intros Hk. induction l as [|x l IH]; [reflexivity|]. simpl.
  destruct (string_dec n x) as [<-|Hne]; simpl.
  - now rewrite Hk.
  - now rewrite IH.
Qed.

Lemma rm_subdirs_spec (l : list string) (d : Cli.listing) (r : list Cli.removal) :
  Cli.rm_subdirs l (d, r) =
  (Cli.mkListing
     (fold_left (fun a n => remove string_dec n a) l (Cli.subdirs d))
     (Cli.files d),
   r ++ map Cli.RmDir l).
Proof.
  revert d r. induction l as [|n l IH]; intros d r; simpl.
  - rewrite app_nil_r. now destruct d.
  - rewrite IH. simpl. now rewrite <- app_assoc.
Qed.

Lemma rm_files_spec (l : list string) (d : Cli.listing) (r : list Cli.removal) :
  (forall x, In x (Cli.files d) -> In x l \/ Cli.is_config_file x = true) ->
  Cli.rm_files l (d, r) =
  (Cli.mkListing (Cli.subdirs d) (filter Cli.is_config_file (Cli.files d)),
   r ++ map Cli.RmFile (filter (fun n => negb (Cli.is_config_file n)) l)).
Proof.
  revert d r. induction l as [|n l IH]; intros d r H; simpl.
  - rewrite app_nil_r. destruct d as [sd fs]. simpl in *. f_equal. f_equal.
    symmetry. apply forallb_filter_id. apply forallb_forall.
    intros x Hx. destruct (H x Hx) as [[]|Hk]. exact Hk.
  - fold (Cli.is_config_file n).
    destruct (Cli.is_config_file n) eqn:Hn; simpl.
    + apply IH. intros x Hx. destruct (H x Hx) as [[<-|Hin]|Hk]; auto.
    + rewrite IH.
      * simpl. rewrite filter_remove_dropped by exact Hn.
        now rewrite <- app_assoc.
      * simpl. intros x Hx. apply in_remove in Hx as [Hx Hne].
        destruct (H x Hx) as [[E|Hin]|Hk]; [congruence | auto | auto].
Qed.

Section CliFacts.
Context {C : Collaborators}.

(** With [--clean 2] the script removes every sub-directory and every file
    not named [hyperband_config.json], sub-directories first, and exits
    without a search. *)
Theorem main_clean_2 (inv : Cli.invocation) (d : Cli.listing) (w : world) :
  Cli.clean inv = Some 2%Z ->
  Cli.main inv d w =
  Cli.Exited
    (Cli.mkListing [] (filter Cli.is_config_file (Cli.files d)))
    (map Cli.RmDir (Cli.subdirs d) ++
     map Cli.RmFile (filter (fun n => negb (Cli.is_config_file n))
                            (Cli.files d))).
Proof.
  intros Hc. unfold Cli.main. rewrite Hc. cbn [truthy_int Z.eqb negb].
  unfold Cli.clean_all. rewrite rm_subdirs_spec.
  rewrite rm_files_spec by (cbn; auto).
  cbn [Cli.subdirs Cli.files app].
  now rewrite remove_all by auto.
Qed.

(** With any other value of [--clean] that is not zero, 1 included, the
    script removes nothing and exits without a search. *)
Theorem main_clean_other (inv : Cli.invocation) (d : Cli.listing) (w : world)
  (z : Z) :
  Cli.clean inv = Some z -> z <> 0%Z -> z <> 2%Z ->
  Cli.main inv d w = Cli.Exited d [].
Proof.
  intros Hc H0 H2. unfold Cli.main. rewrite Hc. cbn [truthy_int].
  destruct (Z.eqb_spec z 0); [contradiction|]. cbn [negb].
  destruct z as [|[p|p|]|p]; try reflexivity; try contradiction.
  destruct p; try reflexivity. contradiction.
Qed.

End CliFacts.

Lemma main_clean_2_witness :
  Cli.main (C := Toy.adapter) (Cli.mkInvocation Toy.args1 (Some 2%Z) [])
           Cli.dir1 Toy.w_done =
  Cli.Exited
    (Cli.mkListing [] ["hyperband_config.json"])
    [Cli.RmDir "lr=1"; Cli.RmDir "lr=2"; Cli.RmDir "best_config";
     Cli.RmFile "hyperband_state.json"].
Proof.
  exact (main_clean_2 (C := Toy.adapter)
           (Cli.mkInvocation Toy.args1 (Some 2%Z) []) Cli.dir1 Toy.w_done
           eq_refl).
Defined.

Lemma main_clean_other_witness :
  Cli.main (C := Toy.adapter) (Cli.mkInvocation Toy.args1 (Some 1%Z) [])
           Cli.dir1 Toy.w_done = Cli.Exited Cli.dir1 [].
Proof.
  apply (main_clean_other (C := Toy.adapter)
           (Cli.mkInvocation Toy.args1 (Some 1%Z) []) Cli.dir1 Toy.w_done 1%Z);
    [reflexivity | lia | lia].
Defined.

(* ================================================================== *)
(** ** Batches: properties *)
(* ================================================================== *)

Section BatchFacts.
Context {Xrow Yrow : Type}.
Implicit Types (g : Batches.generator Xrow Yrow).

Lemma firstn_min_length {A} (n : nat) (l : list A) :
  firstn (Nat.min n (List.length l)) l = firstn n l.
Proof.
  destruct (Nat.le_ge_cases n (List.length l)) as [H|H].
  - now rewrite Nat.min_l.
  - rewrite Nat.min_r by exact H. now rewrite !firstn_all2 by lia.
Qed.

(** A slice that starts inside the list and is [b] long. *)
Lemma py_slice_from {A} (lo b : Z) (l : list A) :
  (0 <= lo <= Z.of_nat (List.length l))%Z -> (0 <= b)%Z ->
  Batches.py_slice lo (lo + b) l =
  firstn (Z.to_nat b) (skipn (Z.to_nat lo) l).
Proof.
  intros Hlo Hb. unfold Batches.py_slice, Batches.clip.
  destruct (Z.ltb_spec lo 0); [lia|].
  destruct (Z.ltb_spec (lo + b) 0); [lia|].
  rewrite (Z.min_l lo) by lia.
  rewrite <- (firstn_min_length (Z.to_nat b)). f_equal.
  rewrite length_skipn. lia.
Qed.

Lemma drain_labelled (fuel : nat) g (y : list Yrow) :
  Batches.Y g = Some y ->
  Batches.task g = "classification" ->
  Batches.N g = Z.of_nat (List.length (Batches.X g)) ->
  List.length y = List.length (Batches.X g) ->
  (0 < Batches.batch_size g)%Z -> (0 <= Batches.i g)%Z ->
  (List.length (skipn (Z.to_nat (Batches.i g)) (Batches.X g)) < fuel)%nat ->
  let '(bs, stopped, g') := Batches.drain fuel g in
  stopped = true /\
  List.concat (map Batches.xs_of bs)
    = skipn (Z.to_nat (Batches.i g)) (Batches.X g) /\
  List.concat (map Batches.ys_of bs) = skipn (Z.to_nat (Batches.i g)) y /\
  Forall Batches.is_classification bs /\
  Forall (fun b => (1 <= List.length (Batches.xs_of b)
                    <= Z.to_nat (Batches.batch_size g))%nat) bs /\
  Batches.next g' = (Batches.StopIteration, g').
Proof.
  revert g. induction fuel as [|fuel IH]; intros g HY Ht HN Hy Hb Hi Hfuel;
    [lia|].
  cbn [Batches.drain]. unfold Batches.next at 1.
  destruct (Z.leb_spec (Batches.N g) (Batches.i g)) as [Hend|Hmore].
  - rewrite !skipn_all2 by lia.
    repeat split; auto. unfold Batches.next.
    destruct (Z.leb_spec (Batches.N g) (Batches.i g)); [reflexivity | lia].
  - rewrite HY, Ht. cbn [String.eqb Ascii.eqb Bool.eqb andb].
    rewrite !py_slice_from by lia.
    set (g1 := Batches.mkGen (Batches.X g) (Some y)
                 (Batches.i g + Batches.batch_size g) (Batches.N g)
                 (Batches.batch_size g) "classification").
    assert (Hsk : forall {A} (l : list A),
               skipn (Z.to_nat (Batches.i g + Batches.batch_size g)) l =
               skipn (Z.to_nat (Batches.batch_size g))
                     (skipn (Z.to_nat (Batches.i g)) l)).
    { intros A l. rewrite skipn_skipn. f_equal. lia. }
    specialize (IH g1 eq_refl eq_refl HN Hy Hb ltac:(simpl; lia)).
    cbn [Batches.X Batches.i Batches.batch_size g1] in IH.
    rewrite !Hsk in IH.
    assert (Hlen : (List.length (skipn (Z.to_nat (Batches.batch_size g))
                     (skipn (Z.to_nat (Batches.i g)) (Batches.X g))) < fuel)%nat).
    { rewrite !length_skipn in *. lia. }
    specialize (IH Hlen).
    destruct (Batches.drain fuel g1) as [[bs stopped] g'].
    destruct IH as (Hs & Hx & Hys & Hc & Hl & Hn).
    cbv beta iota.
    split; [exact Hs|]. cbn [map List.concat Batches.xs_of Batches.ys_of].
    rewrite Hx, Hys, !firstn_skipn.
    split; [reflexivity|]. split; [reflexivity|].
    split; [constructor; [exact I | exact Hc]|].
    split; [|exact Hn].
    constructor; [|exact Hl].
    cbn [Batches.xs_of]. rewrite length_firstn, length_skipn. lia.
Qed.

(** Iterating a labelled classification generator from the start hands the
    rows of [X] and of [Y] to the adversarial generator once each, in
    order, in batches of at most [batch_size] rows, none of them empty, and
    then stops for good. *)
Theorem batches_cover g (y : list Yrow) :
  Batches.Y g = Some y ->
  Batches.task g = "classification" ->
  Batches.i g = 0%Z ->
  Batches.N g = Z.of_nat (List.length (Batches.X g)) ->
  List.length y = List.length (Batches.X g) ->
  (0 < Batches.batch_size g)%Z ->
  let '(bs, stopped, g') := Batches.drain (S (List.length (Batches.X g))) g in
  stopped = true /\
  List.concat (map Batches.xs_of bs) = Batches.X g /\
  List.concat (map Batches.ys_of bs) = y /\
  Forall Batches.is_classification bs /\
  Forall (fun b => (1 <= List.length (Batches.xs_of b)
                    <= Z.to_nat (Batches.batch_size g))%nat) bs /\
  Batches.next g' = (Batches.StopIteration, g').
Proof.
  intros HY Ht Hi HN Hy Hb.
  pose proof (drain_labelled (S (List.length (Batches.X g))) g y
                HY Ht HN Hy Hb) as H.
  rewrite Hi in H. simpl skipn in H. apply H; simpl; lia.
Qed.

(** With labels and a task that is neither [classification] nor
    [regression], [next] returns nothing and still moves on. *)
Theorem next_unknown_task g (y : list Yrow) :
  Batches.Y g = Some y ->
  Batches.task g <> "classification" -> Batches.task g <> "regression" ->
  (Batches.i g < Batches.N g)%Z ->
  Batches.next g =
  (Batches.Return Batches.NoBatch,
   Batches.mkGen (Batches.X g) (Batches.Y g)
     (Batches.i g + Batches.batch_size g) (Batches.N g)
     (Batches.batch_size g) (Batches.task g)).
Proof.
  intros HY H1 H2 Hi. unfold Batches.next.
  destruct (Z.leb_spec (Batches.N g) (Batches.i g)); [lia|].
  rewrite HY.
  destruct (String.eqb_spec (Batches.task g) "classification"); [contradiction|].
  destruct (String.eqb_spec (Batches.task g) "regression"); [contradiction|].
  reflexivity.
Qed.

End BatchFacts.

Lemma batches_cover_witness :
  Batches.drain 6 Batches.gen5 =
  ([Batches.Classification [10; 11]%nat [true; false];
    Batches.Classification [12; 13]%nat [true; false];
    Batches.Classification [14]%nat [true]],
   true,
   Batches.mkGen [10; 11; 12; 13; 14]%nat
     (Some [true; false; true; false; true]) 6 5 2 "classification") /\
  List.concat (map Batches.xs_of (fst (fst (Batches.drain 6 Batches.gen5))))
    = Batches.X Batches.gen5.
Proof.
  split; [reflexivity|].
  pose proof (batches_cover Batches.gen5 [true; false; true; false; true]
                eq_refl eq_refl eq_refl eq_refl eq_refl eq_refl) as H.
  simpl List.length in H.
  destruct (Batches.drain 6 Batches.gen5) as [[bs stopped] g'].
  apply H.
Defined.

Lemma next_unknown_task_witness :
  fst (Batches.next Batches.gen5_other) = Batches.Return Batches.NoBatch.
Proof.
  rewrite (next_unknown_task Batches.gen5_other
             [true; false; true; false; true] eq_refl);
    [reflexivity | discriminate | discriminate | reflexivity].
Defined.

(* ================================================================== *)
(** ** [cont2ohe]: properties *)
(* ================================================================== *)


Section OneHotFacts.
Import OneHot.























(** A sequence of a single position cannot be encoded: the squeezed
    [np_argmax] is a scalar, and indexing it raises. *)
Theorem cont2ohe_single_column (old_x new_x : matrix) :
  rows new_x <> [] -> ncols new_x = 1%nat -> (1 <= ncols old_x)%nat ->
  cont2ohe old_x new_x = Raise IndexError.
Proof.
  intros Hrows Hn Ho. unfold cont2ohe.
  destruct (rows new_x) as [|row0 rest]; [congruence|].
  rewrite Hn. destruct (ncols old_x) as [|k]; [lia|].
  reflexivity.
Qed.

End OneHotFacts.





Lemma cont2ohe_single_column_witness :
  OneHot.cont2ohe OneHot.single OneHot.single = OneHot.Raise OneHot.IndexError.
Proof.
  apply (cont2ohe_single_column OneHot.single OneHot.single);
    [discriminate | reflexivity | cbn; lia].
Defined.


Section FreshRun.
Context {C : Collaborators}.


End FreshRun.

